(** * Response parsers of the symptom-prediction front end

    A shallow embedding of the two line-oriented parsers of the front end:

    - [Prediction.buildStructuredResult]  (frontend/src/pages/PromptPage.jsx)
    - [Report.buildReportStructure]      (the report-upload page)

    together with the helpers they call ([cleanBullet], [stripMarkers],
    [parseCondition], [mapConfidence], [resolveSection],
    [resolveReportSection]).

    A JavaScript string is a sequence of UTF-16 code units; it is modelled as
    a list of code units, each a number in [N].  Regular expressions of the
    source are translated one by one into the recursive functions that
    compute their leftmost match. *)

From Stdlib Require Import List NArith Bool Lia Ascii String.
Import ListNotations.

Local Open Scope N_scope.
Local Open Scope list_scope.

(** ** JavaScript strings as lists of UTF-16 code units *)

Definition str := list N.

(** An ASCII literal of the source, as code units. *)
Definition lit (s : string) : str :=
  List.map N_of_ascii (list_ascii_of_string s).

Definition LF : N := 10.
Definition CR : N := 13.
Definition SP : N := 32.
Definition STAR : N := 42.
Definition DASH : N := 45.
Definition COLON : N := 58.
Definition BULLET : N := 8226.   (* U+2022 *)
Definition EN_DASH : N := 8211.  (* U+2013 *)
Definition EM_DASH : N := 8212.  (* U+2014 *)

(** The characters matched by [\s], which are also those removed by
    [String.prototype.trim]: WhiteSpace and LineTerminator. *)
Definition isWhite (c : N) : bool :=
  ((9 <=? c) && (c <=? 13))
  || (c =? 32) || (c =? 160) || (c =? 5760)
  || ((8192 <=? c) && (c <=? 8202))
  || (c =? 8232) || (c =? 8233) || (c =? 8239) || (c =? 8287)
  || (c =? 12288) || (c =? 65279).

(** [\d] *)
Definition isDigit (c : N) : bool := (48 <=? c) && (c <=? 57).

(** The characters that [.] does not match. *)
Definition isLineTerminator (c : N) : bool :=
  (c =? 10) || (c =? 13) || (c =? 8232) || (c =? 8233).

(** JavaScript truthiness of a string: [!s] holds of the empty string only. *)
Definition truthy (s : str) : bool :=
  match s with [] => false | _ :: _ => true end.

Fixpoint dropWhile (p : N -> bool) (s : str) : str :=
  match s with
  | [] => []
  | c :: rest => if p c then dropWhile p rest else s
  end.

Definition trimStart (s : str) : str := dropWhile isWhite s.

Fixpoint trimEnd (s : str) : str :=
  match s with
  | [] => []
  | c :: rest =>
      match trimEnd rest with
      | [] => if isWhite c then [] else [c]
      | r => c :: r
      end
  end.

(** [s.trim()] *)
Definition trim (s : str) : str := trimStart (trimEnd s).

Definition headIs (p : N -> bool) (s : str) : bool :=
  match s with [] => false | c :: _ => p c end.

Fixpoint startsWith (pat s : str) : bool :=
  match pat, s with
  | [], _ => true
  | _ :: _, [] => false
  | p :: pat', c :: s' => (p =? c) && startsWith pat' s'
  end.

Definition endsWith (pat s : str) : bool := startsWith (rev pat) (rev s).

(** [s.includes(pat)] *)
Fixpoint includes (pat s : str) : bool :=
  startsWith pat s ||
  match s with
  | [] => false
  | _ :: rest => includes pat rest
  end.

(** [parts.join(sep)] *)
Fixpoint join (sep : str) (parts : list str) : str :=
  match parts with
  | [] => []
  | [p] => p
  | p :: ps => p ++ sep ++ join sep ps
  end.

(** [s.split(/\r?\n/)]: a line feed, or a carriage return with the line feed
    that follows it, ends a line; a lone carriage return stays in its line. *)
Fixpoint splitLines (s : str) : list str :=
  match s with
  | [] => [[]]
  | c :: rest =>
      if c =? LF then [] :: splitLines rest
      else if (c =? CR) && headIs (N.eqb LF) rest then splitLines rest
      else match splitLines rest with
           | l :: ls => (c :: l) :: ls
           | [] => [[c]]
           end
  end.

(** [s.replace(/\s+/g, " ")]: every maximal run of white space becomes one
    space. A white character followed by another one is dropped, the last of
    a run is replaced. *)
Fixpoint collapseWhite (s : str) : str :=
  match s with
  | [] => []
  | c :: rest =>
      if isWhite c
      then if headIs isWhite rest then collapseWhite rest
           else SP :: collapseWhite rest
      else c :: collapseWhite rest
  end.

(** Case-insensitive comparison of the [/i] flag without the [u] flag: each
    side is canonicalised with [toUpperCase], and a character outside ASCII
    never canonicalises to an ASCII one. Every pattern of the source is
    ASCII, so upper-casing the ASCII letters decides the comparison. *)
Definition asciiUpper (c : N) : N :=
  if (97 <=? c) && (c <=? 122) then c - 32 else c.

Definition eqCI (p c : N) : bool := asciiUpper p =? asciiUpper c.

Fixpoint startsWithCI (pat s : str) : bool :=
  match pat, s with
  | [], _ => true
  | _ :: _, [] => false
  | p :: pat', c :: s' => eqCI p c && startsWithCI pat' s'
  end.

(** [re.test(s)] for an unanchored expression whose match at a given
    position is decided by [m]. *)
Fixpoint search (m : str -> bool) (s : str) : bool :=
  m s ||
  match s with
  | [] => false
  | _ :: rest => search m rest
  end.

(** ** Prediction mode: [cleanBullet] *)

(** The class [[-*•\d\.\)\s]]. *)
Definition isBulletChar (c : N) : bool :=
  (c =? DASH) || (c =? STAR) || (c =? BULLET) || isDigit c
  || (c =? 46) || (c =? 41) || isWhite c.

(** [text.replace(/^[-*•\d\.\)\s]+/, "").replace(/\s+/g, " ").trim()] *)
Definition cleanBullet (text : str) : str :=
  trim (collapseWhite (dropWhile isBulletChar text)).

(** ** Prediction mode: [mapConfidence] *)

(** [String.prototype.toLowerCase], code unit by code unit.  ASCII capitals
    are lowered; U+0130 lowers to [i] followed by U+0307 and U+212A to [k],
    the only characters outside ASCII whose lower case contains an ASCII code
    unit.  Every other code unit outside ASCII is kept as it is: its real
    lower case consists of code units outside ASCII as well, so the result
    of searching an ASCII word in the lowered string is the same. *)
Definition lowerUnit (c : N) : str :=
  if (65 <=? c) && (c <=? 90) then [c + 32]
  else if c =? 304 then [105; 775]
  else if c =? 8490 then [107]
  else [c].

Definition toLowerCase (s : str) : str := flat_map lowerUnit s.

Definition mapConfidence (label : str) : N :=
  let normalized := toLowerCase label in
  if includes (lit "high") normalized then 75
  else if includes (lit "medium") normalized || includes (lit "med") normalized
  then 55
  else if includes (lit "low") normalized then 35
  else 60.

(** ** Prediction mode: [parseCondition] *)

Record ConditionRecord := mkCondition
  { title : str;
    summary : str;
    confidenceLabel : str;
    confidencePercent : N }.

Definition BOLD : str := [STAR; STAR].

(** The tail [(.*?)\*\*] of the confidence expression: the shortest run of
    characters other than line terminators that is followed by two
    asterisks. Returns the run and what follows the asterisks. *)
Fixpoint lazyUntilBold (s : str) : option (str * str) :=
  if startsWith BOLD s then Some ([], skipn 2 s)
  else match s with
       | [] => None
       | c :: rest =>
           if isLineTerminator c then None
           else match lazyUntilBold rest with
                | Some (inner, after) => Some (c :: inner, after)
                | None => None
                end
       end.

(** [body.match(/\*\*(.*?)\*\*/)]: the leftmost match, as the pair of the
    whole match (index 0) and of its group (index 1). *)
Fixpoint matchBold (s : str) : option (str * str) :=
  match (if startsWith BOLD s then lazyUntilBold (skipn 2 s) else None) with
  | Some (inner, _) => Some (BOLD ++ inner ++ BOLD, inner)
  | None => match s with
            | [] => None
            | _ :: rest => matchBold rest
            end
  end.

(** [s.replace(pat, "")] for a string [pat]: the first occurrence goes. *)
Fixpoint removeFirst (pat s : str) : str :=
  if startsWith pat s then skipn (List.length pat) s
  else match s with
       | [] => []
       | c :: rest => c :: removeFirst pat rest
       end.

(** [s.replace(/[:]/g, "")] *)
Definition removeColons (s : str) : str :=
  filter (fun c => negb (c =? COLON)) s.

(** The class [[:\-–—]]. *)
Definition isSeparator (c : N) : bool :=
  (c =? COLON) || (c =? DASH) || (c =? EN_DASH) || (c =? EM_DASH).

(** [body.replace(/^[:\-–—]\s*/, "")] *)
Definition stripLeadingSeparator (body : str) : str :=
  match body with
  | c :: rest => if isSeparator c then dropWhile isWhite rest else body
  | [] => []
  end.

Definition consHead (c : N) (parts : list str) : list str :=
  match parts with
  | p :: ps => (c :: p) :: ps
  | [] => [[c]]
  end.

(** [body.split(/\s-\s/)] *)
Fixpoint splitDash (s : str) : list str :=
  match s with
  | [] => [[]]
  | c :: rest =>
      match rest with
      | d :: e :: rest' =>
          if isWhite c && (d =? DASH) && isWhite e
          then [] :: splitDash rest'
          else consHead c (splitDash rest)
      | _ => consHead c (splitDash rest)
      end
  end.

Definition parseCondition (line : str) : option ConditionRecord :=
  let body := cleanBullet line in
  if negb (truthy body) then None
  else
    let confidenceMatch := matchBold body in
    let '(confidenceLabel, body) :=
      match confidenceMatch with
      | Some (whole, group) =>
          (trim (removeColons group), trim (removeFirst whole body))
      | None => ([], body)
      end in
    let body := stripLeadingSeparator body in
    let parts := splitDash body in
    let titlePart := hd_error parts in
    let rest := tl parts in
    let title :=
      match titlePart with
      | Some t => if truthy (trim t) then trim t else body
      | None => body
      end in
    let summary := trim (join (lit " - ") rest) in
    Some {| title := title;
            summary := summary;
            confidenceLabel := confidenceLabel;
            confidencePercent := mapConfidence confidenceLabel |}.

(** ** Prediction mode: the dispatcher *)

Module Prediction.

(** The values taken by the variable [section]. *)
Inductive Section :=
| sec_intro | sec_conditions | sec_redFlags | sec_selfCare
| sec_specialist | sec_disclaimer.

Definition Section_eqb (a b : Section) : bool :=
  match a, b with
  | sec_intro, sec_intro | sec_conditions, sec_conditions
  | sec_redFlags, sec_redFlags | sec_selfCare, sec_selfCare
  | sec_specialist, sec_specialist | sec_disclaimer, sec_disclaimer => true
  | _, _ => false
  end.

(** [[-\s]?] followed by [k]. *)
Definition optSep (k : str -> bool) (s : str) : bool :=
  match s with
  | c :: rest => (((c =? DASH) || isWhite c) && k rest) || k s
  | [] => k s
  end.

(** [/likely conditions/i] *)
Definition reConditions : str -> bool :=
  search (startsWithCI (lit "likely conditions")).

(** [/red flags/i] *)
Definition reRedFlags : str -> bool :=
  search (startsWithCI (lit "red flags")).

(** [/self[-\s]?care|self[-\s]?monitor/i] *)
Definition selfCareAt (s : str) : bool :=
  (startsWithCI (lit "self") s
     && optSep (startsWithCI (lit "care")) (skipn 4 s))
  || (startsWithCI (lit "self") s
        && optSep (startsWithCI (lit "monitor")) (skipn 4 s)).

Definition reSelfCare : str -> bool := search selfCareAt.

(** [/specialist|doctor|clinician/i] *)
Definition specialistAt (s : str) : bool :=
  startsWithCI (lit "specialist") s
  || startsWithCI (lit "doctor") s
  || startsWithCI (lit "clinician") s.

Definition reSpecialist : str -> bool := search specialistAt.

(** [/disclaimer/i] *)
Definition reDisclaimer : str -> bool :=
  search (startsWithCI (lit "disclaimer")).

Definition checks : list (Section * (str -> bool)) :=
  [ (sec_conditions, reConditions);
    (sec_redFlags, reRedFlags);
    (sec_selfCare, reSelfCare);
    (sec_specialist, reSpecialist);
    (sec_disclaimer, reDisclaimer) ].

(** [checks.find(({ regex }) => regex.test(line))?.key ?? null] *)
Definition resolveSection (line : str) : option Section :=
  match find (fun chk => snd chk line) checks with
  | Some chk => Some (fst chk)
  | None => None
  end.

Record Result := mkResult
  { introParagraphs : list str;
    conditions : list ConditionRecord;
    redFlags : list str;
    selfCare : list str;
    specialist : list str;
    disclaimer : str }.

Definition base : Result := mkResult [] [] [] [] [] [].

(** [/^[-*•\d]/] *)
Definition isItemStart (c : N) : bool :=
  (c =? DASH) || (c =? STAR) || (c =? BULLET) || isDigit c.

(** The [switch] of the loop body: where a content line goes. *)
Definition route (section : Section) (trimmed : str) (b : Result) : Result :=
  match section with
  | sec_conditions =>
      if headIs isItemStart trimmed
      then match parseCondition trimmed with
           | Some parsed =>
               mkResult (introParagraphs b) (conditions b ++ [parsed])
                 (redFlags b) (selfCare b) (specialist b)
                 (disclaimer b)
           | None => b
           end
      else b
  | sec_redFlags =>
      mkResult (introParagraphs b) (conditions b)
        (redFlags b ++ [cleanBullet trimmed]) (selfCare b)
        (specialist b) (disclaimer b)
  | sec_selfCare =>
      mkResult (introParagraphs b) (conditions b) (redFlags b)
        (selfCare b ++ [cleanBullet trimmed]) (specialist b)
        (disclaimer b)
  | sec_specialist =>
      mkResult (introParagraphs b) (conditions b) (redFlags b)
        (selfCare b) (specialist b ++ [cleanBullet trimmed])
        (disclaimer b)
  | sec_disclaimer =>
      mkResult (introParagraphs b) (conditions b) (redFlags b)
        (selfCare b) (specialist b)
        (disclaimer b ++ cleanBullet trimmed ++ [SP])
  | sec_intro =>
      mkResult (introParagraphs b ++ [cleanBullet trimmed])
        (conditions b) (redFlags b) (selfCare b) (specialist b)
        (disclaimer b)
  end.

(** One iteration of [for (const line of lines)], on the pair of the
    variable [section] and the object [base]. *)
Definition step (st : Section * Result) (line : str) : Section * Result :=
  let trimmed := trim line in
  if negb (truthy trimmed) then st
  else match resolveSection trimmed with
       | Some newSection => (newSection, snd st)
       | None => (fst st, route (fst st) trimmed (snd st))
       end.

Definition finish (b : Result) : Result :=
  mkResult (introParagraphs b) (conditions b) (redFlags b)
    (selfCare b) (specialist b) (trim (disclaimer b)).

(** [rawText] is [None] when the caller passes [null] or [undefined]. *)
Definition buildStructuredResult (rawText : option str) : Result :=
  match rawText with
  | None => base
  | Some text =>
      if negb (truthy text) then base
      else
        let lines := splitLines text in
        finish (snd (fold_left step lines (sec_intro, base)))
  end.

End Prediction.

(** ** Report mode *)

(** [text.replace(/^\*\*|\*\*$/g, "")]: two leading asterisks go, and so do
    two trailing ones found in what is left. *)
Definition stripBold (text : str) : str :=
  let r := if startsWith BOLD text then skipn 2 text else text in
  if endsWith BOLD r then firstn (List.length r - 2) r else r.

(** [s.replace(/^\*\s*/, "")] *)
Definition stripStar (s : str) : str :=
  match s with
  | c :: rest => if c =? STAR then dropWhile isWhite rest else s
  | [] => []
  end.

(** The class [[\-\d\.\)]]. *)
Definition isMarkerChar (c : N) : bool :=
  (c =? DASH) || isDigit c || (c =? 46) || (c =? 41).

(** [s.replace(/^[\-\d\.\)]\s*/, "")] *)
Definition stripMarker (s : str) : str :=
  match s with
  | c :: rest => if isMarkerChar c then dropWhile isWhite rest else s
  | [] => []
  end.

Definition stripMarkers (text : str) : str :=
  trim (collapseWhite (stripMarker (stripStar (stripBold text)))).

(** The characters that one more application of [stripMarkers] removes from
    the front of a string. *)
Definition isLeadingMarker (c : N) : bool := (c =? STAR) || isMarkerChar c.

Module Report.

Inductive Section :=
| sec_summaryTitle | sec_intro | sec_findings | sec_diagnoses
| sec_medications | sec_followups | sec_disclaimer.

Definition containsCI (pat : string) : str -> bool :=
  search (startsWithCI (lit pat)).

Definition resolveReportSection (line : str) : option Section :=
  if startsWithCI (lit "**Summary") line then Some sec_summaryTitle
  else if containsCI "key findings" line || containsCI "impressions" line
  then Some sec_findings
  else if containsCI "diagnoses" line || containsCI "differential" line
  then Some sec_diagnoses
  else if containsCI "medications" line || containsCI "labs" line
  then Some sec_medications
  else if containsCI "follow-up" line || containsCI "follow up" line
  then Some sec_followups
  else if containsCI "disclaimer" line then Some sec_disclaimer
  else None.

Record Result := mkResult
  { summaryTitle : str;
    intro : list str;
    findings : list str;
    diagnoses : list str;
    medications : list str;
    followups : list str;
    disclaimer : str }.

Definition base : Result := mkResult [] [] [] [] [] [] [].

Definition setSummaryTitle (t : str) (b : Result) : Result :=
  mkResult t (intro b) (findings b) (diagnoses b) (medications b)
    (followups b) (disclaimer b).

(** The [switch] of the loop body. *)
Definition route (section : Section) (content : str) (b : Result) : Result :=
  match section with
  | sec_findings =>
      mkResult (summaryTitle b) (intro b) (findings b ++ [content])
        (diagnoses b) (medications b) (followups b) (disclaimer b)
  | sec_diagnoses =>
      mkResult (summaryTitle b) (intro b) (findings b)
        (diagnoses b ++ [content]) (medications b) (followups b)
        (disclaimer b)
  | sec_medications =>
      mkResult (summaryTitle b) (intro b) (findings b)
        (diagnoses b) (medications b ++ [content]) (followups b)
        (disclaimer b)
  | sec_followups =>
      mkResult (summaryTitle b) (intro b) (findings b)
        (diagnoses b) (medications b) (followups b ++ [content])
        (disclaimer b)
  | sec_disclaimer =>
      mkResult (summaryTitle b) (intro b) (findings b)
        (diagnoses b) (medications b) (followups b)
        (disclaimer b ++ content ++ [SP])
  | _ =>
      mkResult (summaryTitle b) (intro b ++ [content]) (findings b)
        (diagnoses b) (medications b) (followups b) (disclaimer b)
  end.

(** One iteration of the loop over the trimmed lines. *)
Definition step (st : Section * Result) (line : str) : Section * Result :=
  if negb (truthy line) then st
  else match resolveReportSection line with
       | Some sec_summaryTitle =>
           (sec_intro, setSummaryTitle (stripMarkers line) (snd st))
       | Some newSection => (newSection, snd st)
       | None =>
           let content := stripMarkers line in
           if negb (truthy content) then st
           else (fst st, route (fst st) content (snd st))
       end.

Definition finish (b : Result) : Result :=
  mkResult (summaryTitle b) (intro b) (findings b) (diagnoses b)
    (medications b) (followups b) (trim (disclaimer b)).

Definition buildReportStructure (rawText : option str) : Result :=
  match rawText with
  | None => base
  | Some text =>
      if negb (truthy text) then base
      else
        let lines := List.map trim (splitLines text) in
        finish (snd (fold_left step lines (sec_intro, base)))
  end.

End Report.

Definition nl (a b : str) : str := a ++ LF :: b.
Infix "//" := nl (at level 61, right associativity).

Definition scenarioA : str :=
  lit "Likely Conditions:" // lit "- **High**: Flu - fever and cough"
  // lit "- **Low**: Cold".

Definition scenarioC : str :=
  lit "**Summary:** Mild infection" // lit "Key Findings:"
  // lit "- Elevated WBC" // lit "Diagnoses:" // lit "- Viral infection (med)".

Definition scenarioB : str := lit "Take rest and drink water.".

Definition blankText : str := lit "  " ++ [LF; 9; CR; LF; 160].

Definition disclaimerLines : str :=
  lit "Disclaimer:" // lit "This is for" // lit "information only.".

Definition ruleAfterRedFlag : str :=
  lit "Red Flags:" // lit "- Chest pain" // lit "---".

Definition numberedFinding : str := lit "1. Elevated WBC".

Definition separatorOnlyCondition : str :=
  lit "Likely Conditions:" // lit "- : **High**".

Definition disclaimerWithRule : str :=
  lit "Disclaimer:" // lit "foo" // lit "-" // lit "bar".

(** The body of a condition line after normalization, removal of the
    confidence span and stripping of a leading separator. *)
Definition bodyAfterSeparator (line : str) : str :=
  let body := cleanBullet line in
  let body :=
    match matchBold body with
    | Some (whole, _) => trim (removeFirst whole body)
    | None => body
    end in
  stripLeadingSeparator body.

(** ** The dispatcher as the specification words it

    Section state is sticky: a header line switches the active section and is
    consumed, a blank line is ignored, every other line is a content line of
    the section that is active when it is read. [contentLines] lists the
    content lines of already trimmed [lines] with their sections. *)

Section Dispatch.

Variable S : Type.
Variable resolve : str -> option S.
Variable S_eqb : S -> S -> bool.

Fixpoint contentLines (section : S) (lines : list str) : list (S * str) :=
  match lines with
  | [] => []
  | line :: rest =>
      if negb (truthy line) then contentLines section rest
      else match resolve line with
           | Some s => contentLines s rest
           | None => (section, line) :: contentLines section rest
           end
  end.

Definition linesOf (sec : S) (cl : list (S * str)) : list str :=
  List.map snd (filter (fun p => S_eqb (fst p) sec) cl).

End Dispatch.

Arguments contentLines {S} resolve section lines.
Arguments linesOf {S} S_eqb sec cl.

(** A match of [m] at the start of a string stays one when text is added at
    the end. *)
Definition stable (m : str -> bool) : Prop :=
  forall t b, m t = true -> m (t ++ b) = true.

(** The confidence label as the specification words it: a case-insensitive
    substring test, decided without lowering the label. *)
Definition includesCI (pat : string) (s : str) : bool :=
  search (startsWithCI (lit pat)) s.

Definition confidenceOfLabel (label : str) : N :=
  if includesCI "high" label then 75
  else if includesCI "medium" label || includesCI "med" label then 55
  else if includesCI "low" label then 35
  else 60.

(** The words [mapConfidence] looks for: lower-case ASCII letters, without
    [k], and with no [i] in last position. *)
Fixpoint plainWord (w : str) : bool :=
  match w with
  | [] => true
  | c :: rest =>
      (97 <=? c) && (c <=? 122) && negb (c =? 107)
      && (negb (c =? 105) || truthy rest) && plainWord rest
  end.

Definition isBlankInput (rawText : option str) : bool :=
  match rawText with
  | None => true
  | Some text => forallb isWhite text
  end.

Module PredictionSpec.
Import Prediction.

(** The content lines of an input, each with its section. *)
Definition contents (text : str) : list (Section * str) :=
  contentLines resolveSection sec_intro (List.map trim (splitLines text)).

Definition sectionLines (sec : Section) (text : str) : list str :=
  linesOf Section_eqb sec (contents text).

(** What a content line of the conditions section adds to the list. *)
Definition conditionOf (trimmed : str) : list ConditionRecord :=
  if headIs isItemStart trimmed
  then match parseCondition trimmed with
       | Some parsed => [parsed]
       | None => []
       end
  else [].

(** What a content line of the disclaimer section adds to the text. *)
Definition spaced (l : str) : str := cleanBullet l ++ [SP].

(** The header expression of a section; the intro has none. *)
Definition headerOf (sec : Section) : str -> bool :=
  match sec with
  | sec_intro => fun _ => false
  | sec_conditions => reConditions
  | sec_redFlags => reRedFlags
  | sec_selfCare => reSelfCare
  | sec_specialist => reSpecialist
  | sec_disclaimer => reDisclaimer
  end.

(** No line of the input matches the header expression [re]. *)
Definition noLineMatches (re : str -> bool) (text : str) : Prop :=
  forall line, In line (splitLines text) -> re line = false.
End PredictionSpec.

Module ReportSpec.
Import Report.

Definition Section_eqb (a b : Section) : bool :=
  match a, b with
  | sec_summaryTitle, sec_summaryTitle | sec_intro, sec_intro
  | sec_findings, sec_findings | sec_diagnoses, sec_diagnoses
  | sec_medications, sec_medications | sec_followups, sec_followups
  | sec_disclaimer, sec_disclaimer => true
  | _, _ => false
  end.

(** The section that becomes active after a header line. *)
Definition activeAfter (line : str) : option Section :=
  match resolveReportSection line with
  | Some sec_summaryTitle => Some sec_intro
  | r => r
  end.

Definition contents (text : str) : list (Section * str) :=
  contentLines activeAfter sec_intro (List.map trim (splitLines text)).

(** The stored contents of a section: the stripped content lines that are
    not empty. *)
Definition stored (sec : Section) (cl : list (Section * str)) : list str :=
  filter truthy (List.map stripMarkers (linesOf Section_eqb sec cl)).

Definition isSummaryLine (line : str) : bool :=
  truthy line &&
  match resolveReportSection line with
  | Some sec_summaryTitle => true
  | _ => false
  end.

(** What a stored content of the disclaimer section adds to the text. *)
Definition spaced (content : str) : str := content ++ [SP].
End ReportSpec.

(** ** Prediction page: badges, paragraphs and the summary text *)

Module Badge.

Record Meta := mkMeta
  { label : str;
    badgeClass : str;
    dotClass : str }.

Definition high : Meta :=
  mkMeta (lit "High") (lit "badge-high") (lit "dot-high").
Definition med : Meta :=
  mkMeta (lit "Med") (lit "badge-med") (lit "dot-med").
Definition low : Meta :=
  mkMeta (lit "Low") (lit "badge-low") (lit "dot-low").
Definition est : Meta :=
  mkMeta (lit "Est.") (lit "badge-med") (lit "dot-med").

End Badge.

Definition mapConfidenceMeta (label : str) : Badge.Meta :=
  if includes (lit "high") label then Badge.high
  else if includes (lit "med") label then Badge.med
  else if includes (lit "low") label then Badge.low
  else Badge.est.

(** The constant [confidenceLabel] of [ConditionItem]:
    [(condition.confidenceLabel || condition.confidenceText || "Est.")
       .toLowerCase().trim()].
    The records of [parseCondition] have no field [confidenceText], so the
    second operand is [undefined] for them. *)
Definition conditionItemLabel (condition : ConditionRecord) : str :=
  let shown :=
    if truthy (confidenceLabel condition) then confidenceLabel condition
    else lit "Est." in
  trim (toLowerCase shown).

(** The constant [meta] of [ConditionItem]. *)
Definition conditionItemMeta (condition : ConditionRecord) : Badge.Meta :=
  mapConfidenceMeta (conditionItemLabel condition).

(** The badge that goes with a score of [mapConfidence]. *)
Definition metaOfScore (score : N) : Badge.Meta :=
  if score =? 75 then Badge.high
  else if score =? 55 then Badge.med
  else if score =? 35 then Badge.low
  else Badge.est.

(** [result.split(/\n{2,}/)]: a run of two line feeds or more separates two
    chunks; [inBreak] holds while such a run is being read. *)
Fixpoint splitParagraphs (inBreak : bool) (s : str) : list str :=
  match s with
  | [] => [[]]
  | c :: rest =>
      if inBreak && (c =? LF) then splitParagraphs true rest
      else if (c =? LF) && headIs (N.eqb LF) rest
      then [] :: splitParagraphs true rest
      else consHead c (splitParagraphs false rest)
  end.

(** [Boolean(result?.trim())] *)
Definition hasResult (result : str) : bool := truthy (trim result).

(** The memoised [formattedResult] of [PromptPage]. *)
Definition formattedResult (result : str) : list str :=
  if negb (hasResult result) then []
  else filter truthy (List.map trim (splitParagraphs false result)).

(** [data.introParagraphs.join(" ") || fallbackParagraphs[0] || ""] of
    [RankedConditionsView]. *)
Definition summaryText (data : Prediction.Result)
    (fallbackParagraphs : list str) : str :=
  let joined := join [SP] (Prediction.introParagraphs data) in
  if truthy joined then joined
  else match fallbackParagraphs with
       | first :: _ => if truthy first then first else []
       | [] => []
       end.

(** [data.introParagraphs.slice(1)] *)
Definition summarySupporting (data : Prediction.Result) : list str :=
  tl (Prediction.introParagraphs data).

(** ** The server: [sanitizeReport] and [extractGeminiText] *)

(** [text.replace(/\u0000/g, "").slice(0, 8000)] *)
Definition sanitizeReport (text : str) : str :=
  firstn (N.to_nat 8000) (filter (fun c => negb (c =? 0)) text).

(** What [extractGeminiText] reads of the reply: a part is [Some text] when
    [part?.text] is a string, a candidate is [Some parts] when
    [candidate?.content?.parts] is there, and the payload is
    [Some candidates] when [payload?.candidates] is. *)
Definition Part := option str.
Definition Candidate := option (list Part).
Definition Payload := option (list Candidate).

(** The body of the inner loop, on the array [textParts]. *)
Definition pushPart (textParts : list str) (part : Part) : list str :=
  match part with
  | Some text =>
      if truthy (trim text) then textParts ++ [trim text] else textParts
  | None => textParts
  end.

(** The body of the outer loop. *)
Definition pushCandidate (textParts : list str) (candidate : Candidate)
  : list str :=
  let parts := match candidate with Some ps => ps | None => [] end in
  fold_left pushPart parts textParts.

Definition extractGeminiText (payload : Payload) : str :=
  let candidates := match payload with Some cs => cs | None => [] end in
  let textParts := fold_left pushCandidate candidates [] in
  trim (join [LF; LF] textParts).

(** The texts of a reply in document order, trimmed, the blank ones left
    out. *)
Definition partTexts (part : Part) : list str :=
  match part with
  | Some text => if truthy (trim text) then [trim text] else []
  | None => []
  end.

Definition candidateTexts (candidate : Candidate) : list str :=
  match candidate with
  | Some parts => flat_map partTexts parts
  | None => []
  end.

Definition payloadTexts (payload : Payload) : list str :=
  match payload with
  | Some candidates => flat_map candidateTexts candidates
  | None => []
  end.

(** [payload?.candidates ?? []] *)
Definition candidatesOf (payload : Payload) : list Candidate :=
  match payload with Some cs => cs | None => [] end.

(** A string that is not empty and has no white space at either end. *)
Definition isPiece (x : str) : Prop := x <> [] /\ trim x = x.

(** The sections announced by the header lines of [lines], in order, and the
    section that is active after [lines]: the one of the last header line,
    or [initial] when there is none. *)
Definition headerSections {S : Type} (resolve : str -> option S)
    (lines : list str) : list S :=
  flat_map
    (fun line =>
       if truthy line
       then match resolve line with Some s => [s] | None => [] end
       else [])
    lines.

Definition activeSection {S : Type} (resolve : str -> option S)
    (initial : S) (lines : list str) : S :=
  last (headerSections resolve lines) initial.

(** A test on strings that does not see the case of ASCII letters. *)
Definition caseBlind (m : str -> bool) : Prop :=
  forall s, m (List.map asciiUpper s) = m s.

(** No character of [w] is white space. *)
Definition noWhite (w : str) : bool := forallb (fun c => negb (isWhite c)) w.

(** White space is normal in [s] when every white character of [s] is a
    space that no white character follows. *)
Fixpoint normalWhite (s : str) : bool :=
  match s with
  | [] => true
  | c :: rest =>
      (if isWhite c then (c =? SP) && negb (headIs isWhite rest) else true)
      && normalWhite rest
  end.

(** * Properties *)

(** ** The translated expressions on small inputs *)

Example cleanBullet_ex1 :
  cleanBullet (lit "- **High**: Flu - fever   and cough ")
  = lit "High**: Flu - fever and cough".
Proof. reflexivity. Qed.

Example splitLines_ex1 :
  splitLines (lit "a" ++ [CR; LF] ++ lit "b" ++ [LF; CR] ++ lit "c")
  = [lit "a"; lit "b"; CR :: lit "c"].
Proof. reflexivity. Qed.

Example parseCondition_trailing_label :
  parseCondition (lit "- Migraine **Medium**")
  = Some (mkCondition (lit "Migraine") [] (lit "Medium") 55).
Proof. reflexivity. Qed.

Example splitDash_ex :
  splitDash (lit "a - - b - c") = [lit "a"; lit "- b"; lit "c"].
Proof. reflexivity. Qed.

(** ** White space and trimming *)

Lemma trimEnd_cons_nonwhite c s :
  isWhite c = false -> trimEnd (c :: s) = c :: trimEnd s.
Proof.
  intros H. simpl. rewrite H. destruct (trimEnd s); reflexivity.
Qed.

Lemma trimEnd_idem s : trimEnd (trimEnd s) = trimEnd s.
Proof.
  induction s as [|c s IH]; [reflexivity|].
  simpl. destruct (trimEnd s) as [|d r] eqn:E.
  - destruct (isWhite c) eqn:W; simpl; [reflexivity|now rewrite W].
  - simpl in *. rewrite IH. reflexivity.
Qed.

Lemma trimEnd_dropWhile s :
  trimEnd s = s -> trimEnd (dropWhile isWhite s) = dropWhile isWhite s.
Proof.
  induction s as [|c s IH]; [reflexivity|].
  intros H. simpl in H. simpl dropWhile.
  destruct (isWhite c) eqn:W.
  - apply IH. destruct (trimEnd s) as [|d r] eqn:E.
    + discriminate.
    + now injection H.
  - simpl. rewrite W. exact H.
Qed.

Lemma dropWhile_idem p s : dropWhile p (dropWhile p s) = dropWhile p s.
Proof.
  induction s as [|c s IH]; [reflexivity|].
  simpl. destruct (p c) eqn:E; [exact IH|]. simpl. now rewrite E.
Qed.

Lemma trim_idem s : trim (trim s) = trim s.
Proof.
  unfold trim, trimStart.
  rewrite (trimEnd_dropWhile (trimEnd s) (trimEnd_idem s)).
  apply dropWhile_idem.
Qed.

Lemma trim_cons_nonwhite c s :
  isWhite c = false -> trim (c :: s) = c :: trimEnd s.
Proof.
  intros H. unfold trim, trimStart.
  rewrite (trimEnd_cons_nonwhite c s H). simpl. now rewrite H.
Qed.

Lemma trimEnd_all_white s : forallb isWhite s = true -> trimEnd s = [].
Proof.
  induction s as [|c s IH]; [reflexivity|].
  simpl. intros H. apply andb_prop in H as [Hc Hs].
  rewrite (IH Hs), Hc. reflexivity.
Qed.

Lemma trim_all_white s : forallb isWhite s = true -> trim s = [].
Proof.
  intros H. unfold trim. now rewrite trimEnd_all_white.
Qed.

Lemma trim_snoc_space s : trim (s ++ [SP]) = trim s.
Proof.
  unfold trim. f_equal.
  induction s as [|c s IH]; [reflexivity|].
  simpl. now rewrite IH.
Qed.

Lemma collapseWhite_head_white s :
  headIs isWhite (collapseWhite s) = headIs isWhite s.
Proof.
  induction s as [|c s IH]; [reflexivity|].
  simpl. destruct (isWhite c) eqn:W.
  - destruct (headIs isWhite s) eqn:H; [now rewrite IH|reflexivity].
  - simpl. exact W.
Qed.

Lemma collapseWhite_normal s : normalWhite (collapseWhite s) = true.
Proof.
  induction s as [|c s IH]; [reflexivity|].
  simpl. destruct (isWhite c) eqn:W.
  - destruct (headIs isWhite s) eqn:H; [exact IH|].
    simpl. now rewrite collapseWhite_head_white, H, IH.
  - simpl. now rewrite W, IH.
Qed.

Lemma normalWhite_collapse s : normalWhite s = true -> collapseWhite s = s.
Proof.
  induction s as [|c s IH]; [reflexivity|].
  simpl. intros H. apply andb_prop in H as [Hc Hs].
  rewrite (IH Hs). destruct (isWhite c); [|reflexivity].
  apply andb_prop in Hc as [Hsp Hn].
  apply N.eqb_eq in Hsp. subst c.
  now destruct (headIs isWhite s).
Qed.

Lemma normalWhite_dropWhile p s :
  normalWhite s = true -> normalWhite (dropWhile p s) = true.
Proof.
  induction s as [|c s IH]; [reflexivity|].
  intros H. simpl dropWhile. destruct (p c); [|exact H].
  apply IH. simpl in H. now apply andb_prop in H as [_ H].
Qed.

Lemma trimEnd_head_white s :
  headIs isWhite (trimEnd s) = true -> headIs isWhite s = true.
Proof.
  destruct s as [|c s]; [easy|].
  simpl. destruct (trimEnd s); [destruct (isWhite c) eqn:W|]; simpl; congruence.
Qed.

Lemma normalWhite_trimEnd s :
  normalWhite s = true -> normalWhite (trimEnd s) = true.
Proof.
  induction s as [|c s IH]; [reflexivity|].
  simpl. intros H. apply andb_prop in H as [Hc Hs].
  specialize (IH Hs).
  destruct (trimEnd s) as [|d r] eqn:E.
  - destruct (isWhite c) eqn:W; [reflexivity|]. simpl. now rewrite W.
  - change (normalWhite (c :: d :: r)) with
      ((if isWhite c then (c =? SP) && negb (headIs isWhite (d :: r)) else true)
       && normalWhite (d :: r)).
    rewrite IH, andb_true_r.
    destruct (isWhite c); [|reflexivity].
    apply andb_prop in Hc as [Hsp Hn]. rewrite Hsp. simpl.
    destruct (isWhite d) eqn:Wd; [|reflexivity].
    assert (headIs isWhite s = true).
    { apply trimEnd_head_white. now rewrite E. }
    rewrite H in Hn. discriminate.
Qed.

Lemma normalWhite_trim s : normalWhite s = true -> normalWhite (trim s) = true.
Proof.
  intros H. unfold trim, trimStart.
  now apply normalWhite_dropWhile, normalWhite_trimEnd.
Qed.

(** ** Idempotence of the prediction normalizer *)

Lemma isBulletChar_white c : isBulletChar c = false -> isWhite c = false.
Proof.
  unfold isBulletChar. intros H.
  repeat (apply orb_false_elim in H as [H ?]). assumption.
Qed.

Lemma dropWhile_head p s : headIs p (dropWhile p s) = false.
Proof.
  induction s as [|c s IH]; [reflexivity|].
  simpl. destruct (p c) eqn:E; [exact IH|]. simpl. exact E.
Qed.

Lemma cleanBullet_idempotent s : cleanBullet (cleanBullet s) = cleanBullet s.
Proof.
  unfold cleanBullet.
  pose proof (dropWhile_head isBulletChar s) as Hh.
  destruct (dropWhile isBulletChar s) as [|c r]; [reflexivity|].
  simpl in Hh. pose proof (isBulletChar_white c Hh) as W.
  simpl collapseWhite. rewrite W.
  rewrite (trim_cons_nonwhite _ _ W).
  simpl dropWhile. rewrite Hh.
  simpl collapseWhite. rewrite W.
  rewrite (trim_cons_nonwhite _ _ W).
  rewrite normalWhite_collapse
    by apply normalWhite_trimEnd, collapseWhite_normal.
  now rewrite trimEnd_idem.
Qed.

(** ** The report normalizer strips one layer of markers *)

Lemma dropWhile_length p s : (List.length (dropWhile p s) <= List.length s)%nat.
Proof.
  induction s as [|c s IH]; simpl; [lia|]. destruct (p c); simpl; lia.
Qed.

Lemma trimEnd_length s : (List.length (trimEnd s) <= List.length s)%nat.
Proof.
  induction s as [|c s IH]; simpl; [lia|].
  destruct (trimEnd s); [destruct (isWhite c)|]; simpl in *; lia.
Qed.

Lemma trim_length s : (List.length (trim s) <= List.length s)%nat.
Proof.
  unfold trim, trimStart.
  pose proof (dropWhile_length isWhite (trimEnd s)).
  pose proof (trimEnd_length s). lia.
Qed.

Lemma collapseWhite_length s :
  (List.length (collapseWhite s) <= List.length s)%nat.
Proof.
  induction s as [|c s IH]; simpl; [lia|].
  destruct (isWhite c); [destruct (headIs isWhite s)|]; simpl; lia.
Qed.

Lemma stripMarker_length s :
  (List.length (stripMarker s) <= List.length s)%nat.
Proof.
  destruct s as [|c s]; simpl; [lia|].
  destruct (isMarkerChar c); simpl; [|lia].
  pose proof (dropWhile_length isWhite s). lia.
Qed.

Lemma stripStar_length s : (List.length (stripStar s) <= List.length s)%nat.
Proof.
  destruct s as [|c s]; simpl; [lia|].
  destruct (c =? STAR); simpl; [|lia].
  pose proof (dropWhile_length isWhite s). lia.
Qed.

Lemma endsWith_BOLD_length s :
  endsWith BOLD s = true -> (2 <= List.length s)%nat.
Proof.
  unfold endsWith. rewrite <- (length_rev s).
  destruct (rev s) as [|a [|b r]]; simpl; try discriminate; try lia.
Qed.

Lemma startsWith_BOLD_length s :
  startsWith BOLD s = true -> (2 <= List.length s)%nat.
Proof.
  destruct s as [|a [|b r]]; simpl; try discriminate; try lia.
Qed.

Lemma stripBold_length s : (List.length (stripBold s) <= List.length s)%nat.
Proof.
  unfold stripBold.
  assert (H : (List.length (if startsWith BOLD s then skipn 2 s else s)
               <= List.length s)%nat).
  { destruct (startsWith BOLD s); [rewrite length_skipn|]; lia. }
  destruct (endsWith BOLD _); [rewrite length_firstn|]; lia.
Qed.

Lemma stripBold_fixed s :
  startsWith BOLD s = false -> endsWith BOLD s = false -> stripBold s = s.
Proof. unfold stripBold. now intros -> ->. Qed.

Lemma stripBold_shorter s :
  startsWith BOLD s || endsWith BOLD s = true ->
  (List.length (stripBold s) < List.length s)%nat.
Proof.
  unfold stripBold. destruct (startsWith BOLD s) eqn:Hs; cbn [orb].
  - intros _. apply startsWith_BOLD_length in Hs.
    pose proof (length_skipn 2 s) as Hk.
    destruct (endsWith BOLD _); [rewrite length_firstn|]; lia.
  - intros He. rewrite He. apply endsWith_BOLD_length in He.
    rewrite length_firstn. lia.
Qed.

Lemma stripMarkers_length s :
  (List.length (stripMarkers s) <= List.length s)%nat.
Proof.
  unfold stripMarkers.
  pose proof
    (trim_length (collapseWhite (stripMarker (stripStar (stripBold s))))).
  pose proof (collapseWhite_length (stripMarker (stripStar (stripBold s)))).
  pose proof (stripMarker_length (stripStar (stripBold s))).
  pose proof (stripStar_length (stripBold s)).
  pose proof (stripBold_length s). lia.
Qed.

Lemma stripMarkers_after_bold s :
  (List.length (stripMarkers s) <= List.length (stripBold s))%nat.
Proof.
  unfold stripMarkers.
  pose proof
    (trim_length (collapseWhite (stripMarker (stripStar (stripBold s))))).
  pose proof (collapseWhite_length (stripMarker (stripStar (stripBold s)))).
  pose proof (stripMarker_length (stripStar (stripBold s))).
  pose proof (stripStar_length (stripBold s)). lia.
Qed.

Lemma startsWith_BOLD_head s :
  headIs isLeadingMarker s = false -> startsWith BOLD s = false.
Proof.
  destruct s as [|c s]; [reflexivity|].
  unfold isLeadingMarker, BOLD. cbn [headIs startsWith]. intros H.
  apply orb_false_elim in H as [H _].
  now rewrite N.eqb_sym, H.
Qed.

Lemma stripMarkers_normal s : normalWhite (stripMarkers s) = true.
Proof. apply normalWhite_trim, collapseWhite_normal. Qed.

(** A string with normal white space, trimmed, without a leading marker and
    without trailing asterisks is left alone. *)
Lemma stripMarkers_fixed t :
  normalWhite t = true -> trim t = t ->
  headIs isLeadingMarker t = false -> endsWith BOLD t = false ->
  stripMarkers t = t.
Proof.
  intros Hn Ht Hh He. unfold stripMarkers.
  rewrite (stripBold_fixed t (startsWith_BOLD_head t Hh) He).
  destruct t as [|c r]; [reflexivity|].
  unfold isLeadingMarker in Hh. simpl in Hh.
  apply orb_false_elim in Hh as [H1 H2].
  unfold stripStar. rewrite H1. unfold stripMarker. rewrite H2.
  now rewrite (normalWhite_collapse _ Hn).
Qed.

(** A leading marker or trailing asterisks make the result shorter. *)
Lemma stripMarkers_shorter t :
  headIs isLeadingMarker t || endsWith BOLD t = true ->
  (List.length (stripMarkers t) < List.length t)%nat.
Proof.
  intros H.
  destruct (startsWith BOLD t || endsWith BOLD t) eqn:Hb.
  - pose proof (stripBold_shorter t Hb).
    pose proof (stripMarkers_after_bold t). lia.
  - apply orb_false_elim in Hb as [Hs He].
    rewrite He, orb_false_r in H.
    unfold stripMarkers. rewrite (stripBold_fixed t Hs He).
    destruct t as [|c r]; [discriminate|].
    unfold isLeadingMarker in H. simpl in H.
    pose proof (trim_length (collapseWhite (stripMarker (stripStar (c :: r))))).
    pose proof (collapseWhite_length (stripMarker (stripStar (c :: r)))).
    pose proof (stripMarker_length (stripStar (c :: r))).
    pose proof (dropWhile_length isWhite r).
    unfold stripStar in *.
    destruct (c =? STAR) eqn:E1; [simpl; lia|].
    simpl in H. unfold stripMarker in *. rewrite H in *. simpl. lia.
Qed.

(** When a second application of [stripMarkers] changes nothing:
    [cleanBullet] is idempotent on every string, and applying
    [stripMarkers] twice to [s] gives the same as applying it once exactly
    when [stripMarkers s] neither starts with an asterisk, a dash, a digit,
    a dot or a closing parenthesis nor ends with two asterisks. *)
Theorem normalizer_idempotence (s : str) :
  cleanBullet (cleanBullet s) = cleanBullet s /\
  (stripMarkers (stripMarkers s) = stripMarkers s <->
   headIs isLeadingMarker (stripMarkers s) = false
   /\ endsWith BOLD (stripMarkers s) = false).
Proof.
  split; [apply cleanBullet_idempotent|]. split.
  - intros Hfix.
    destruct (headIs isLeadingMarker (stripMarkers s)
              || endsWith BOLD (stripMarkers s)) eqn:E.
    + apply stripMarkers_shorter in E. rewrite Hfix in E. lia.
    + now apply orb_false_elim in E.
  - intros [Hh He]. apply stripMarkers_fixed; auto.
    + apply stripMarkers_normal.
    + apply trim_idem.
Qed.

(** [stripMarkers] is not idempotent: of two dashes it removes one. *)
Lemma stripMarkers_not_idempotent :
  ~ (forall s : str,
        cleanBullet (cleanBullet s) = cleanBullet s /\
        stripMarkers (stripMarkers s) = stripMarkers s).
Proof.
  intros H. destruct (H (lit "--a")) as [_ H2]. vm_compute in H2.
  discriminate.
Qed.

Lemma normalizer_idempotence_witness :
  stripMarkers (stripMarkers (lit "- Elevated WBC"))
  = stripMarkers (lit "- Elevated WBC").
Proof.
  apply (proj2 (normalizer_idempotence (lit "- Elevated WBC"))).
  split; reflexivity.
Defined.

(** C3, at a numbered item.  [stripMarkers] removes the digit of
    [1. Elevated WBC] and leaves the dot, and a second application removes
    the dot: the report normalizer is not idempotent there, and the same
    happens with two dashes.  [cleanBullet] removes the whole run at once
    and is idempotent on every string. *)
Theorem stripMarkers_leaves_marker :
  stripMarkers numberedFinding = lit ". Elevated WBC"
  /\ stripMarkers (stripMarkers numberedFinding) = lit "Elevated WBC"
  /\ stripMarkers (lit "--a") = lit "-a"
  /\ stripMarkers (stripMarkers (lit "--a")) = lit "a"
  /\ cleanBullet numberedFinding = lit "Elevated WBC"
  /\ (forall s, cleanBullet (cleanBullet s) = cleanBullet s).
Proof.
  repeat split; try (vm_compute; reflexivity).
  apply cleanBullet_idempotent.
Qed.

(** ** The confidence mapping *)

Ltac bool_to_prop :=
  repeat match goal with
    | H : _ && _ = true |- _ => apply andb_prop in H as [? ?]
    | H : _ || _ = false |- _ => apply orb_false_elim in H as [? ?]
    | H : negb _ = true |- _ => apply negb_true_iff in H
    | H : negb _ = false |- _ => apply negb_false_iff in H
    | H : (_ =? _) = true |- _ => apply N.eqb_eq in H
    | H : (_ =? _) = false |- _ => apply N.eqb_neq in H
    | H : (_ <=? _) = true |- _ => apply N.leb_le in H
    | H : (_ <=? _) = false |- _ => apply N.leb_gt in H
    end.

Ltac split_tests :=
  repeat match goal with
    | |- context [?a <=? ?b] => destruct (N.leb_spec a b); cbn [andb orb]
    end;
  repeat match goal with
    | |- context [?a =? ?b] => destruct (N.eqb_spec a b); cbn [andb orb]
    end.

Lemma eqCI_lower_letter c x :
  97 <= c -> c <= 122 ->
  eqCI c x = (x =? c) || (x =? c - 32).
Proof.
  intros H1 H2. unfold eqCI, asciiUpper.
  split_tests; try reflexivity; lia.
Qed.

(** Lowering the label and comparing exactly is comparing without case. *)
Lemma startsWith_toLowerCase w s :
  plainWord w = true ->
  startsWith w (toLowerCase s) = startsWithCI w s.
Proof.
  revert s. induction w as [|c r IH]; intros s Hw; [reflexivity|].
  destruct s as [|x s]; [reflexivity|].
  simpl in Hw. apply andb_prop in Hw as [Hw Hr].
  apply andb_prop in Hw as [Hw Hi]. apply andb_prop in Hw as [Hw Hk].
  apply andb_prop in Hw as [H1 H2].
  apply N.leb_le in H1. apply N.leb_le in H2.
  apply negb_true_iff, N.eqb_neq in Hk.
  cbn [startsWithCI]. rewrite (eqCI_lower_letter c x H1 H2), <- (IH s Hr).
  unfold toLowerCase. cbn [flat_map]. unfold lowerUnit.
  destruct ((65 <=? x) && (x <=? 90)) eqn:Hup.
  - bool_to_prop. cbn [app startsWith].
    f_equal. split_tests; try reflexivity; lia.
  - destruct (x =? 304) eqn:E304.
    + bool_to_prop. subst x. cbn [app startsWith].
      replace (304 =? c) with false by (symmetry; apply N.eqb_neq; lia).
      replace (304 =? c - 32) with false by (symmetry; apply N.eqb_neq; lia).
      simpl orb. cbn [andb].
      destruct (c =? 105) eqn:Ec; [|reflexivity].
      simpl in Hi. destruct r as [|d r']; [discriminate|].
      simpl in Hr. bool_to_prop. cbn [andb startsWith].
      replace (d =? 775) with false by (symmetry; apply N.eqb_neq; lia).
      reflexivity.
    + destruct (x =? 8490) eqn:E8490.
      * bool_to_prop. subst x. cbn [app startsWith].
        replace (c =? 107) with false by (symmetry; apply N.eqb_neq; lia).
        replace (8490 =? c) with false by (symmetry; apply N.eqb_neq; lia).
        replace (8490 =? c - 32) with false
          by (symmetry; apply N.eqb_neq; lia).
        reflexivity.
      * cbn [app startsWith]. f_equal.
        apply andb_false_iff in Hup.
        bool_to_prop.
        split_tests; try reflexivity;
          try lia; destruct Hup as [Hup|Hup]; bool_to_prop; lia.
Qed.

Lemma startsWith_plain_775 w rest :
  plainWord w = true -> truthy w = true ->
  startsWith w (775 :: rest) = false.
Proof.
  destruct w as [|c r]; [discriminate|]. simpl. intros H _.
  bool_to_prop.
  replace (c =? 775) with false by (symmetry; apply N.eqb_neq; lia).
  reflexivity.
Qed.

Lemma includes_nil s : includes [] s = true.
Proof. destruct s; reflexivity. Qed.

Lemma search_startsWithCI_nil s : search (startsWithCI []) s = true.
Proof. destruct s; reflexivity. Qed.

Lemma includes_toLowerCase w s :
  plainWord w = true ->
  includes w (toLowerCase s) = search (startsWithCI w) s.
Proof.
  intros Hw. destruct (truthy w) eqn:Hne.
  2:{ destruct w; [|discriminate].
      now rewrite includes_nil, search_startsWithCI_nil. }
  induction s as [|x s IH].
  - simpl. now rewrite <- (startsWith_toLowerCase w [] Hw).
  - cbn [search]. rewrite <- IH, <- (startsWith_toLowerCase w (x :: s) Hw).
    unfold toLowerCase. cbn [flat_map]. unfold lowerUnit.
    destruct ((65 <=? x) && (x <=? 90)); [reflexivity|].
    destruct (x =? 304); [|destruct (x =? 8490); reflexivity].
    cbn [app includes].
    rewrite (startsWith_plain_775 w _ Hw Hne). reflexivity.
Qed.

Lemma search_here (m : str -> bool) s : m s = true -> search m s = true.
Proof. intros H. destruct s; simpl; now rewrite H. Qed.

Lemma search_app m pre s :
  search m s = true -> search m (pre ++ s) = true.
Proof.
  intros H. induction pre as [|c pre IH]; [exact H|].
  simpl. rewrite IH. apply orb_true_r.
Qed.

Lemma startsWithCI_app w mid post :
  List.map asciiUpper mid = List.map asciiUpper w ->
  startsWithCI w (mid ++ post) = true.
Proof.
  revert mid. induction w as [|p w IH]; intros mid H; [reflexivity|].
  destruct mid as [|c mid]; [discriminate|].
  simpl in H. injection H as Hc Hm.
  simpl. unfold eqCI. rewrite Hc, N.eqb_refl. now apply IH.
Qed.

(** C6.  The confidence score is a total function of the label decided by
    case-insensitive substring tests in the order high, medium or med, low,
    with 60 for every other label and for the empty one; and a label that
    contains the word high in any letter case scores 75 whatever text
    surrounds it. *)
Theorem mapConfidence_categorical :
  (forall label, mapConfidence label = confidenceOfLabel label)
  /\ mapConfidence [] = 60
  /\ (forall pre word post,
         List.map asciiUpper word = lit "HIGH" ->
         mapConfidence (pre ++ word ++ post) = 75).
Proof.
  assert (Heq : forall label, mapConfidence label = confidenceOfLabel label).
  { intros label. unfold mapConfidence, confidenceOfLabel, includesCI.
    now rewrite !includes_toLowerCase by reflexivity. }
  split; [exact Heq|]. split; [reflexivity|].
  intros pre word post H. rewrite Heq. unfold confidenceOfLabel, includesCI.
  rewrite search_app; [reflexivity|].
  apply search_here, startsWithCI_app. exact H.
Qed.

Lemma mapConfidence_categorical_witness :
  mapConfidence (lit "Very HiGh likelihood") = 75.
Proof.
  apply (proj2 (proj2 mapConfidence_categorical)
           (lit "Very ") (lit "HiGh") (lit " likelihood")).
  reflexivity.
Defined.

(** ** Lines, substrings and joining *)

Lemma startsWithCI_stable pat : stable (startsWithCI pat).
Proof.
  induction pat as [|p pat IH]; intros t b; [reflexivity|].
  destruct t as [|c t]; [discriminate|]. simpl.
  intros H. apply andb_prop in H as [-> H]. now apply IH.
Qed.

Lemma search_app_r m t b :
  stable m -> search m t = true -> search m (t ++ b) = true.
Proof.
  intros Hm. induction t as [|c t IH].
  - simpl. rewrite orb_false_r. intros H. apply search_here.
    exact (Hm [] b H).
  - cbn [search app]. intros H. apply orb_prop in H as [H|H].
    + pose proof (Hm (c :: t) b H) as H'. cbn [app] in H'. now rewrite H'.
    + rewrite (IH H). apply orb_true_r.
Qed.

Lemma dropWhile_suffix p s : exists a, s = a ++ dropWhile p s.
Proof.
  induction s as [|c s [a IH]]; [now exists []|].
  simpl. destruct (p c).
  - exists (c :: a). simpl. now f_equal.
  - now exists [].
Qed.

Lemma trimEnd_prefix s : exists b, s = trimEnd s ++ b.
Proof.
  induction s as [|c s [b IH]]; [now exists []|].
  simpl. destruct (trimEnd s) as [|d r].
  - destruct (isWhite c).
    + now exists (c :: s).
    + exists b. simpl. now f_equal.
  - exists b. simpl. now f_equal.
Qed.

(** A match in the trimmed line is a match in the line. *)
Lemma search_trim m line :
  stable m -> search m (trim line) = true -> search m line = true.
Proof.
  intros Hm H. unfold trim, trimStart in H.
  destruct (trimEnd_prefix line) as [b Hb].
  destruct (dropWhile_suffix isWhite (trimEnd line)) as [a Ha].
  rewrite Hb, Ha. apply search_app_r; [exact Hm|].
  now apply search_app.
Qed.

Lemma splitLines_forallb p text line :
  forallb p text = true -> In line (splitLines text) ->
  forallb p line = true.
Proof.
  revert line. induction text as [|c text IH]; intros line Hp Hin.
  - destruct Hin as [<-|[]]. reflexivity.
  - simpl in Hp. apply andb_prop in Hp as [Hc Hp].
    simpl in Hin. destruct (c =? LF).
    + destruct Hin as [<-|Hin]; [reflexivity|]. now apply IH.
    + destruct ((c =? CR) && headIs (N.eqb LF) text); [now apply IH|].
      destruct (splitLines text) as [|l ls].
      * destruct Hin as [<-|[]]. simpl. now rewrite Hc.
      * destruct Hin as [<-|Hin].
        -- simpl. rewrite Hc. apply IH; [exact Hp|now left].
        -- apply IH; [exact Hp|now right].
Qed.

Lemma contentLines_blank (S : Type) (resolve : str -> option S) sec lines :
  (forall l, In l lines -> truthy l = false) ->
  contentLines resolve sec lines = [].
Proof.
  induction lines as [|l lines IH]; intros H; [reflexivity|].
  simpl. rewrite (H l (or_introl eq_refl)). simpl.
  apply IH. intros l' Hl'. apply H. now right.
Qed.

Lemma flat_map_join (cs : list str) :
  truthy (flat_map (fun c => c ++ [SP]) cs) = true ->
  flat_map (fun c => c ++ [SP]) cs = join [SP] cs ++ [SP].
Proof.
  induction cs as [|c cs IH]; [discriminate|]. intros _.
  destruct cs as [|d cs].
  - simpl. now rewrite app_nil_r.
  - change (flat_map (fun c => c ++ [SP]) (c :: d :: cs))
      with ((c ++ [SP]) ++ flat_map (fun c => c ++ [SP]) (d :: cs)).
    rewrite IH.
    + change (join [SP] (c :: d :: cs))
        with (c ++ [SP] ++ join [SP] (d :: cs)).
      now rewrite <- !app_assoc.
    + simpl. now destruct d.
Qed.

(** Appending a space after each part and trimming once is joining with
    single spaces and trimming once. *)
Lemma trim_flat_map_join (cs : list str) :
  trim (flat_map (fun c => c ++ [SP]) cs) = trim (join [SP] cs).
Proof.
  destruct (truthy (flat_map (fun c => c ++ [SP]) cs)) eqn:T.
  - rewrite (flat_map_join cs T). apply trim_snoc_space.
  - destruct cs as [|c cs]; [reflexivity|].
    simpl in T. now destruct c.
Qed.

(** ** Sticky sections *)

Section DispatchFacts.

Variable S : Type.
Variable resolve : str -> option S.
Variable S_eqb : S -> S -> bool.
Hypothesis S_eqb_true : forall a b, S_eqb a b = true -> a = b.

(** A content line is a line of the input that is neither blank nor a
    header. *)
Lemma contentLines_origin sec lines s l :
  In (s, l) (contentLines resolve sec lines) ->
  In l lines /\ truthy l = true /\ resolve l = None.
Proof.
  revert sec. induction lines as [|line rest IH]; intros sec; [easy|].
  simpl. destruct (truthy line) eqn:T; simpl.
  - destruct (resolve line) as [s'|] eqn:R.
    + intros H. destruct (IH _ H) as (? & ? & ?). auto.
    + intros [H|H].
      * injection H as <- <-. auto.
      * destruct (IH _ H) as (? & ? & ?). auto.
  - intros H. destruct (IH _ H) as (? & ? & ?). auto.
Qed.

(** The section of a content line is the initial one or one that a header
    line of the input resolves to. *)
Lemma contentLines_section sec lines s l :
  In (s, l) (contentLines resolve sec lines) ->
  s = sec \/ exists h, In h lines /\ resolve h = Some s.
Proof.
  revert sec. induction lines as [|line rest IH]; intros sec; [easy|].
  simpl. destruct (truthy line) eqn:T; simpl.
  - destruct (resolve line) as [s'|] eqn:R.
    + intros H. destruct (IH _ H) as [->|(h & ? & ?)]; eauto.
    + intros [H|H].
      * injection H as <- <-. auto.
      * destruct (IH _ H) as [->|(h & ? & ?)]; eauto.
  - intros H. destruct (IH _ H) as [->|(h & ? & ?)]; eauto.
Qed.

(** A section that is not the initial one and that no header line
    announces has no content line. *)
Lemma linesOf_no_header x sec lines :
  S_eqb sec x = false ->
  (forall h, In h lines -> resolve h <> Some x) ->
  linesOf S_eqb x (contentLines resolve sec lines) = [].
Proof.
  intros Hsec Hno. unfold linesOf.
  assert (Hall : forall p, In p (contentLines resolve sec lines) ->
                           S_eqb (fst p) x = false).
  { intros [s l] Hin. simpl.
    destruct (S_eqb s x) eqn:E; [|reflexivity].
    pose proof (S_eqb_true _ _ E) as Hs. subst s.
    destruct (contentLines_section _ _ _ _ Hin) as [Hx|(h & Hh & Hr)].
    - subst x. congruence.
    - now destruct (Hno h Hh). }
  induction (contentLines resolve sec lines) as [|p cl IH]; [reflexivity|].
  simpl. rewrite (Hall p (or_introl eq_refl)).
  apply IH. intros q Hq. apply Hall. now right.
Qed.

(** Without any header line, every line that is not blank is a content
    line of the initial section. *)
Lemma contentLines_no_header sec lines :
  (forall h, In h lines -> resolve h = None) ->
  contentLines resolve sec lines
  = List.map (fun l => (sec, l)) (filter truthy lines).
Proof.
  induction lines as [|line rest IH]; intros Hno; [reflexivity|].
  simpl. rewrite IH by (intros; apply Hno; now right).
  destruct (truthy line); simpl; [|reflexivity].
  now rewrite (Hno line (or_introl eq_refl)).
Qed.

Lemma linesOf_In x cl l :
  In l (linesOf S_eqb x cl) -> In (x, l) cl.
Proof.
  unfold linesOf. rewrite in_map_iff.
  intros ([s l'] & Hl & Hin). simpl in Hl. subst l'.
  apply filter_In in Hin as [Hin E]. simpl in E.
  apply S_eqb_true in E. now subst s.
Qed.

End DispatchFacts.

(** ** Prediction mode: the result in terms of the content lines *)

Module PredictionFacts.
Import Prediction PredictionSpec.

Lemma prediction_Section_eqb_true a b : Section_eqb a b = true -> a = b.
Proof. destruct a, b; simpl; congruence. Qed.

(** The loop appends, field by field, what the content lines of each
    section contribute. *)
Lemma prediction_fold_step lines sec b :
  snd (fold_left step lines (sec, b)) =
  let cl := contentLines resolveSection sec (List.map trim lines) in
  mkResult
    (introParagraphs b
       ++ List.map cleanBullet (linesOf Section_eqb sec_intro cl))
    (conditions b
       ++ flat_map conditionOf (linesOf Section_eqb sec_conditions cl))
    (redFlags b
       ++ List.map cleanBullet (linesOf Section_eqb sec_redFlags cl))
    (selfCare b
       ++ List.map cleanBullet (linesOf Section_eqb sec_selfCare cl))
    (specialist b
       ++ List.map cleanBullet (linesOf Section_eqb sec_specialist cl))
    (disclaimer b
       ++ flat_map spaced (linesOf Section_eqb sec_disclaimer cl)).
Proof.
  revert sec b. induction lines as [|line rest IH]; intros sec b.
  - destruct b. simpl. now rewrite !app_nil_r.
  - cbn [fold_left List.map contentLines]. unfold step at 2.
    cbn [fst snd].
    destruct (truthy (trim line)) eqn:T; cbn [negb].
    + destruct (resolveSection (trim line)) as [s'|] eqn:R.
      * apply IH.
      * rewrite IH. unfold linesOf, conditionOf, spaced.
        destruct sec; cbn [route filter fst snd Section_eqb List.map flat_map
                             introParagraphs conditions redFlags selfCare
                             specialist disclaimer];
          rewrite <- ?app_assoc; try reflexivity.
        destruct (headIs isItemStart (trim line)); [|reflexivity].
        destruct (parseCondition (trim line)); cbn; 
          rewrite <- ?app_assoc; reflexivity.
    + apply IH.
Qed.

Lemma optSep_stable k : stable k -> stable (optSep k).
Proof.
  intros Hk t b. destruct t as [|c t].
  - simpl. intros H. pose proof (Hk [] b H) as H'. simpl in H'.
    destruct b as [|c b]; simpl; [exact H'|].
    rewrite H'. apply orb_true_r.
  - cbn [optSep app]. intros H. apply orb_prop in H as [H|H].
    + apply andb_prop in H as [-> H]. now rewrite (Hk t b H).
    + pose proof (Hk (c :: t) b H) as H'. cbn [app] in H'.
      rewrite H'. apply orb_true_r.
Qed.

Lemma startsWithCI_skipn pat t b :
  startsWithCI pat t = true ->
  skipn (List.length pat) (t ++ b) = skipn (List.length pat) t ++ b.
Proof.
  revert t. induction pat as [|p pat IH]; intros t; [reflexivity|].
  destruct t as [|c t]; [discriminate|]. simpl.
  intros H. apply andb_prop in H as [_ H]. now apply IH.
Qed.

Lemma selfCareAt_stable : stable selfCareAt.
Proof.
  intros t b. unfold selfCareAt.
  destruct (startsWithCI (lit "self") t) eqn:Hs; [|discriminate].
  rewrite (startsWithCI_stable _ t b Hs).
  change 4%nat with (List.length (lit "self")).
  rewrite (startsWithCI_skipn _ t b Hs). cbn [andb].
  intros H. apply orb_prop in H as [H|H].
  - now rewrite (optSep_stable _ (startsWithCI_stable _) _ b H).
  - rewrite (optSep_stable _ (startsWithCI_stable _) _ b H).
    apply orb_true_r.
Qed.

Lemma specialistAt_stable : stable specialistAt.
Proof.
  intros t b. unfold specialistAt. intros H.
  apply orb_prop in H as [H|H]; [apply orb_prop in H as [H|H]|];
    rewrite (startsWithCI_stable _ t b H); rewrite ?orb_true_r; reflexivity.
Qed.

(** Only a line that matches the expression of a section switches to it. *)
Lemma resolveSection_matches line sec :
  resolveSection line = Some sec ->
  match sec with
  | sec_intro => False
  | sec_conditions => reConditions line = true
  | sec_redFlags => reRedFlags line = true
  | sec_selfCare => reSelfCare line = true
  | sec_specialist => reSpecialist line = true
  | sec_disclaimer => reDisclaimer line = true
  end.
Proof.
  unfold resolveSection, checks. cbn [find snd fst].
  destruct (reConditions line) eqn:E1; [now intros [= <-]|].
  destruct (reRedFlags line) eqn:E2; [now intros [= <-]|].
  destruct (reSelfCare line) eqn:E3; [now intros [= <-]|].
  destruct (reSpecialist line) eqn:E4; [now intros [= <-]|].
  destruct (reDisclaimer line) eqn:E5; [now intros [= <-]|].
  discriminate.
Qed.

Lemma header_trim line sec :
  headerOf sec (trim line) = true -> headerOf sec line = true.
Proof.
  destruct sec; cbn [headerOf]; try discriminate; apply search_trim;
    auto using startsWithCI_stable, selfCareAt_stable, specialistAt_stable.
Qed.

Lemma resolveSection_header line sec :
  resolveSection (trim line) = Some sec -> headerOf sec line = true.
Proof.
  intros H. apply header_trim.
  apply resolveSection_matches in H. now destruct sec.
Qed.

(** A section whose header expression no line matches has no content
    line. *)
Lemma sectionLines_no_header sec text :
  sec <> sec_intro ->
  noLineMatches (headerOf sec) text ->
  sectionLines sec text = [].
Proof.
  intros Hsec Hno. unfold sectionLines, contents.
  apply linesOf_no_header.
  - apply prediction_Section_eqb_true.
  - now destruct sec.
  - intros h Hh Hr. apply in_map_iff in Hh as (line & <- & Hline).
    apply resolveSection_header in Hr. now rewrite (Hno line Hline) in Hr.
Qed.

(** [buildStructuredResult] through the content lines of its input. *)
Lemma prediction_build_contents text :
  buildStructuredResult (Some text) =
  mkResult
    (List.map cleanBullet (sectionLines sec_intro text))
    (flat_map conditionOf (sectionLines sec_conditions text))
    (List.map cleanBullet (sectionLines sec_redFlags text))
    (List.map cleanBullet (sectionLines sec_selfCare text))
    (List.map cleanBullet (sectionLines sec_specialist text))
    (trim (flat_map spaced (sectionLines sec_disclaimer text))).
Proof.
  unfold buildStructuredResult.
  destruct text as [|c text]; [reflexivity|].
  cbn [truthy negb]. rewrite prediction_fold_step. reflexivity.
Qed.

End PredictionFacts.

(** ** Report mode: the result in terms of the content lines *)

Module ReportFacts.
Import Report ReportSpec.

Lemma report_Section_eqb_true a b : Section_eqb a b = true -> a = b.
Proof. destruct a, b; simpl; congruence. Qed.

Lemma activeAfter_None line :
  activeAfter line = None -> resolveReportSection line = None.
Proof.
  unfold activeAfter.
  destruct (resolveReportSection line) as [[]|]; congruence.
Qed.

Lemma last_cons (x : str) l d : last (x :: l) d = last l x.
Proof.
  revert x d. induction l as [|y l IH]; intros x d; [reflexivity|].
  change (last (x :: y :: l) d) with (last (y :: l) d).
  now rewrite !IH.
Qed.

(** The loop appends, field by field, the stored contents of each section;
    the summary title is the stripped last summary line. *)
Lemma report_fold_step lines sec b :
  sec <> sec_summaryTitle ->
  snd (fold_left step lines (sec, b)) =
  let cl := contentLines activeAfter sec lines in
  mkResult
    (last (List.map stripMarkers (filter isSummaryLine lines))
       (summaryTitle b))
    (intro b ++ stored sec_intro cl)
    (findings b ++ stored sec_findings cl)
    (diagnoses b ++ stored sec_diagnoses cl)
    (medications b ++ stored sec_medications cl)
    (followups b ++ stored sec_followups cl)
    (disclaimer b ++ flat_map spaced (stored sec_disclaimer cl)).
Proof.
  revert sec b. induction lines as [|line rest IH]; intros sec b Hsec.
  - destruct b. simpl. now rewrite !app_nil_r.
  - cbn [fold_left contentLines filter]. unfold step at 2, isSummaryLine at 1.
    cbn [fst snd].
    assert (A : activeAfter line
                = match resolveReportSection line with
                  | Some sec_summaryTitle => Some sec_intro
                  | r => r
                  end) by reflexivity.
    destruct (truthy line) eqn:T; cbn [negb andb].
    + destruct (resolveReportSection line) as [s'|] eqn:R; rewrite A.
      * destruct s'; cbn [List.map]; rewrite ?last_cons;
          rewrite IH by discriminate; reflexivity.
      * unfold stored, linesOf.
        cbn [filter fst snd List.map].
        destruct (truthy (stripMarkers line)) eqn:Tc; cbn [negb].
        -- rewrite (IH _ _ Hsec). unfold stored, linesOf, spaced.
           destruct sec; try congruence;
             cbn [route Section_eqb filter List.map flat_map snd
                    summaryTitle intro findings diagnoses medications
                    followups disclaimer];
             rewrite ?Tc; cbn [flat_map];
             rewrite <- ?app_assoc; reflexivity.
        -- rewrite (IH _ _ Hsec). unfold stored, linesOf.
           destruct sec; try congruence;
             cbn [Section_eqb filter List.map snd]; rewrite ?Tc;
             reflexivity.
    + now apply IH.
Qed.

(** [buildReportStructure] through the content lines of its input. *)
Lemma report_build_contents text :
  buildReportStructure (Some text) =
  let lines := List.map trim (splitLines text) in
  let cl := contents text in
  mkResult
    (last (List.map stripMarkers (filter isSummaryLine lines)) [])
    (stored sec_intro cl) (stored sec_findings cl)
    (stored sec_diagnoses cl) (stored sec_medications cl)
    (stored sec_followups cl)
    (trim (flat_map spaced (stored sec_disclaimer cl))).
Proof.
  unfold buildReportStructure.
  destruct text as [|c text]; [reflexivity|].
  cbn [truthy negb]. rewrite report_fold_step by discriminate.
  reflexivity.
Qed.

End ReportFacts.

(** * The claims *)

(** ** Scenario A *)

(** C1.  What [buildStructuredResult] returns for scenario A: two records,
    but [cleanBullet] has removed the two asterisks that open the label, so
    no confidence span is found: the label stays in the title, the
    confidence label is empty and the score is the default 60. *)
Theorem scenarioA_conditions :
  Prediction.conditions (Prediction.buildStructuredResult (Some scenarioA))
  = [ mkCondition (lit "High**: Flu") (lit "fever and cough") [] 60;
      mkCondition (lit "Low**: Cold") [] [] 60 ].
Proof. vm_compute. reflexivity. Qed.

(** ** Blank input *)

Lemma blank_lines_trim text line :
  forallb isWhite text = true ->
  In line (List.map trim (splitLines text)) -> truthy line = false.
Proof.
  intros Hw Hin. apply in_map_iff in Hin as (l & <- & Hl).
  now rewrite (trim_all_white l (splitLines_forallb _ _ _ Hw Hl)).
Qed.

(** C2.  Both parsers are total functions from an optional string to a
    record whose fields have the declared types, so they return a result
    for every input; for an absent, empty or white-space-only input the
    result is the empty one: every list and every string field is empty. *)
Theorem parse_total_blank_empty (rawText : option str) :
  (exists p r,
      Prediction.buildStructuredResult rawText = p
      /\ Report.buildReportStructure rawText = r)
  /\ (isBlankInput rawText = true ->
      Prediction.buildStructuredResult rawText = Prediction.base
      /\ Report.buildReportStructure rawText = Report.base).
Proof.
  split; [eauto|].
  destruct rawText as [text|]; [|split; reflexivity].
  cbn [isBlankInput]. intros Hw.
  assert (Hb : forall line,
             In line (List.map trim (splitLines text)) ->
             truthy line = false)
    by (intros line; apply blank_lines_trim, Hw).
  split.
  - rewrite PredictionFacts.prediction_build_contents.
    unfold PredictionSpec.sectionLines, PredictionSpec.contents.
    rewrite contentLines_blank by exact Hb.
    reflexivity.
  - rewrite ReportFacts.report_build_contents.
    unfold ReportSpec.contents. cbv zeta.
    rewrite contentLines_blank by exact Hb.
    replace (filter ReportSpec.isSummaryLine
               (List.map trim (splitLines text))) with (@nil str);
      [reflexivity|].
    symmetry.
    induction (List.map trim (splitLines text)) as [|l ls IH];
      [reflexivity|].
    simpl. unfold ReportSpec.isSummaryLine at 1.
    rewrite (Hb l (or_introl eq_refl)). simpl.
    apply IH. intros. apply Hb. now right.
Qed.

Lemma parse_total_blank_empty_witness :
  Prediction.buildStructuredResult (Some blankText) = Prediction.base
  /\ Report.buildReportStructure (Some blankText) = Report.base.
Proof.
  apply (proj2 (parse_total_blank_empty (Some blankText))).
  reflexivity.
Defined.

(** ** Lines whose normalized form is empty *)

(** Report mode skips a content line that is empty once stripped. *)
Lemma report_empty_content_skipped st line :
  Report.resolveReportSection line = None ->
  stripMarkers line = [] ->
  Report.step st line = st.
Proof.
  intros Hr Hc. unfold Report.step. rewrite Hr, Hc.
  now destruct (truthy line).
Qed.

(** C4, prediction mode at a markdown rule.  The line [---] is neither blank
    nor a header and its normalized form is empty, yet the red-flags list
    receives an empty string for it. *)
Theorem empty_normalized_line_is_stored :
  trim (lit "---") <> []
  /\ Prediction.resolveSection (trim (lit "---")) = None
  /\ cleanBullet (trim (lit "---")) = []
  /\ Prediction.redFlags
       (Prediction.buildStructuredResult (Some ruleAfterRedFlag))
     = [lit "Chest pain"; []].
Proof. repeat split; try discriminate; vm_compute; reflexivity. Qed.

(** ** Condition lines without a body *)

Lemma parseCondition_None line :
  parseCondition line = None <-> cleanBullet line = [].
Proof.
  unfold parseCondition. destruct (cleanBullet line) as [|c body].
  - now split.
  - cbn [truthy negb]. destruct (matchBold (c :: body)) as [[whole group]|];
      split; discriminate.
Qed.

(** When [parseCondition] returns no record: exactly when the line is empty
    after normalization alone.  A line whose body becomes empty only once
    the confidence span and the leading separator are removed yields a
    record with an empty title and an empty summary. *)
Theorem parseCondition_empty_body (line : str) :
  (parseCondition line = None <-> cleanBullet line = [])
  /\ (cleanBullet line <> [] -> bodyAfterSeparator line = [] ->
      exists label,
        parseCondition line
        = Some (mkCondition [] [] label (mapConfidence label))).
Proof.
  split; [apply parseCondition_None|].
  unfold parseCondition, bodyAfterSeparator.
  destruct (cleanBullet line) as [|c body]; [congruence|].
  intros _. cbn [truthy negb].
  destruct (matchBold (c :: body)) as [[whole group]|];
    intros ->; eexists; reflexivity.
Qed.

(** A bullet line made of a separator and a confidence span has an empty
    body after the three steps, and a record is produced for it. *)
Lemma separator_only_line_yields_record :
  ~ (forall line,
        headIs Prediction.isItemStart line = true ->
        bodyAfterSeparator line = [] ->
        parseCondition line = None).
Proof.
  intros H. specialize (H (lit "- : **High**") eq_refl eq_refl).
  vm_compute in H. discriminate.
Qed.

Lemma parseCondition_empty_body_witness :
  exists label,
    parseCondition (lit "- : **High**")
    = Some (mkCondition [] [] label (mapConfidence label)).
Proof.
  apply (proj2 (parseCondition_empty_body (lit "- : **High**"))).
  - discriminate.
  - reflexivity.
Defined.

(** C5, at a bullet line made of a separator and a confidence span.  The
    line starts with a bullet and its body is empty after normalization,
    span removal and separator stripping, yet [parseCondition] returns a
    record for it, with an empty title, an empty summary, the label [High]
    and the score 75, and [buildStructuredResult] stores that record. *)
Theorem empty_body_record_produced :
  headIs Prediction.isItemStart (lit "- : **High**") = true
  /\ cleanBullet (lit "- : **High**") = lit ": **High**"
  /\ bodyAfterSeparator (lit "- : **High**") = []
  /\ parseCondition (lit "- : **High**")
     = Some (mkCondition [] [] (lit "High") 75)
  /\ Prediction.conditions
       (Prediction.buildStructuredResult (Some separatorOnlyCondition))
     = [mkCondition [] [] (lit "High") 75].
Proof. repeat split; vm_compute; reflexivity. Qed.

(** ** Sections without a header *)

Lemma resolveSection_no_header text :
  (forall sec,
      sec <> Prediction.sec_intro ->
      PredictionSpec.noLineMatches (PredictionSpec.headerOf sec) text) ->
  forall h, In h (List.map trim (splitLines text)) ->
            Prediction.resolveSection h = None.
Proof.
  intros Hno h Hh. apply in_map_iff in Hh as (line & <- & Hline).
  destruct (Prediction.resolveSection (trim line)) as [sec|] eqn:R;
    [|reflexivity].
  pose proof (PredictionFacts.resolveSection_header _ _ R) as Hm.
  rewrite Hno in Hm; [discriminate| |exact Hline].
  intros ->. discriminate.
Qed.

Lemma linesOf_same (sec : Prediction.Section) (ls : list str) :
  linesOf Prediction.Section_eqb sec (List.map (fun l => (sec, l)) ls) = ls.
Proof.
  unfold linesOf. induction ls as [|l ls IH]; [reflexivity|].
  simpl. replace (Prediction.Section_eqb sec sec) with true
    by now destruct sec.
  simpl. now rewrite IH.
Qed.

Lemma linesOf_other (sec x : Prediction.Section) (ls : list str) :
  Prediction.Section_eqb sec x = false ->
  linesOf Prediction.Section_eqb x (List.map (fun l => (sec, l)) ls) = [].
Proof.
  intros H. unfold linesOf. induction ls as [|l ls IH]; [reflexivity|].
  simpl. now rewrite H.
Qed.

(** C7.  In the result of [buildStructuredResult], the list of a section
    whose header expression no line of the input matches is empty (and so is
    the disclaimer text); when no line matches any header expression, the
    normalized lines that are not blank all go to the intro paragraphs and
    every other field is empty, as for the text without headers of
    scenario B. *)
Theorem section_empty_without_header (text : str) :
  let r := Prediction.buildStructuredResult (Some text) in
  (PredictionSpec.noLineMatches Prediction.reConditions text ->
   Prediction.conditions r = [])
  /\ (PredictionSpec.noLineMatches Prediction.reRedFlags text ->
      Prediction.redFlags r = [])
  /\ (PredictionSpec.noLineMatches Prediction.reSelfCare text ->
      Prediction.selfCare r = [])
  /\ (PredictionSpec.noLineMatches Prediction.reSpecialist text ->
      Prediction.specialist r = [])
  /\ (PredictionSpec.noLineMatches Prediction.reDisclaimer text ->
      Prediction.disclaimer r = [])
  /\ ((forall sec, sec <> Prediction.sec_intro ->
         PredictionSpec.noLineMatches (PredictionSpec.headerOf sec) text) ->
      r = Prediction.mkResult
            (List.map cleanBullet
               (filter truthy (List.map trim (splitLines text))))
            [] [] [] [] [])
  /\ Prediction.buildStructuredResult (Some scenarioB)
     = Prediction.mkResult [lit "Take rest and drink water."] [] [] [] [] [].
Proof.
  cbv zeta. rewrite PredictionFacts.prediction_build_contents.
  cbn [Prediction.conditions Prediction.redFlags Prediction.selfCare
         Prediction.specialist Prediction.disclaimer].
  repeat split.
  - intros H.
    now rewrite (PredictionFacts.sectionLines_no_header
                   Prediction.sec_conditions text).
  - intros H.
    now rewrite (PredictionFacts.sectionLines_no_header
                   Prediction.sec_redFlags text).
  - intros H.
    now rewrite (PredictionFacts.sectionLines_no_header
                   Prediction.sec_selfCare text).
  - intros H.
    now rewrite (PredictionFacts.sectionLines_no_header
                   Prediction.sec_specialist text).
  - intros H.
    now rewrite (PredictionFacts.sectionLines_no_header
                   Prediction.sec_disclaimer text).
  - intros H. unfold PredictionSpec.sectionLines, PredictionSpec.contents.
    rewrite (contentLines_no_header _ _ _ _ (resolveSection_no_header text H)).
    rewrite linesOf_same, !linesOf_other by reflexivity.
    reflexivity.
Qed.

Lemma section_empty_without_header_witness :
  Prediction.conditions (Prediction.buildStructuredResult (Some scenarioB))
  = []
  /\ Prediction.buildStructuredResult (Some scenarioB)
     = Prediction.mkResult
         (List.map cleanBullet
            (filter truthy (List.map trim (splitLines scenarioB))))
         [] [] [] [] [].
Proof.
  destruct (section_empty_without_header scenarioB)
    as (Hc & _ & _ & _ & _ & Hall & _).
  split.
  - apply Hc. intros line Hin. vm_compute in Hin.
    destruct Hin as [<-|[]]. reflexivity.
  - apply Hall. intros sec _ line Hin. vm_compute in Hin.
    destruct Hin as [<-|[]]. now destruct sec.
Defined.

(** ** The disclaimer text *)

Lemma flat_map_spaced (f : str -> str) (ls : list str) :
  flat_map (fun l => f l ++ [SP]) ls
  = flat_map (fun c => c ++ [SP]) (List.map f ls).
Proof.
  induction ls as [|l ls IH]; [reflexivity|]. simpl. now rewrite IH.
Qed.

(** The disclaimer through what is routed to the disclaimer section, joined
    by single spaces and trimmed once: in prediction mode the normalized
    content lines of the section, the empty ones included, in report mode
    its stored contents.  The lines [This is for] and [information only.]
    give [This is for information only.] *)
Theorem disclaimer_joined_trimmed :
  (forall text,
      Prediction.disclaimer (Prediction.buildStructuredResult (Some text))
      = trim (join [SP]
                (List.map cleanBullet
                   (PredictionSpec.sectionLines
                      Prediction.sec_disclaimer text))))
  /\ (forall text,
         Report.disclaimer (Report.buildReportStructure (Some text))
         = trim (join [SP]
                   (ReportSpec.stored Report.sec_disclaimer
                      (ReportSpec.contents text))))
  /\ Prediction.disclaimer
       (Prediction.buildStructuredResult (Some disclaimerLines))
     = lit "This is for information only."
  /\ Report.disclaimer
       (Report.buildReportStructure (Some disclaimerLines))
     = lit "This is for information only.".
Proof.
  split; [|split; [|split; reflexivity]].
  - intros text. rewrite PredictionFacts.prediction_build_contents.
    cbn [Prediction.disclaimer]. unfold PredictionSpec.spaced.
    now rewrite flat_map_spaced, trim_flat_map_join.
  - intros text. rewrite ReportFacts.report_build_contents.
    cbn [Report.disclaimer]. unfold ReportSpec.spaced.
    now rewrite trim_flat_map_join.
Qed.

(** C8, at a disclaimer with a line whose normalized form is empty.  The
    lines [foo], [-] and [bar] under the disclaimer header give [foo bar]
    in report mode, where the empty content is skipped, and [foo  bar]
    with two spaces in prediction mode, where the empty string and its
    space are appended; without such a line both modes give the joined
    text. *)
Theorem disclaimer_empty_line_doubles_space :
  cleanBullet (trim (lit "-")) = []
  /\ Prediction.disclaimer
       (Prediction.buildStructuredResult (Some disclaimerWithRule))
     = lit "foo  bar"
  /\ Report.disclaimer
       (Report.buildReportStructure (Some disclaimerWithRule))
     = lit "foo bar"
  /\ Prediction.disclaimer
       (Prediction.buildStructuredResult (Some disclaimerLines))
     = lit "This is for information only."
  /\ Report.disclaimer
       (Report.buildReportStructure (Some disclaimerLines))
     = lit "This is for information only.".
Proof. repeat split; vm_compute; reflexivity. Qed.

(** ** Header lines in report mode *)

Lemma stored_origin sec cl x :
  In x (ReportSpec.stored sec cl) ->
  exists line, In (sec, line) cl /\ x = stripMarkers line /\ x <> [].
Proof.
  unfold ReportSpec.stored. intros H.
  apply filter_In in H as [H T].
  apply in_map_iff in H as (line & <- & Hl).
  exists line. repeat split.
  - now apply (linesOf_In _ _ ReportFacts.report_Section_eqb_true).
  - intros E. now rewrite E in T.
Qed.

Lemma report_list_origin text sec x :
  In x (ReportSpec.stored sec (ReportSpec.contents text)) ->
  exists line,
    In line (List.map trim (splitLines text))
    /\ Report.resolveReportSection line = None
    /\ x = stripMarkers line.
Proof.
  intros H. apply stored_origin in H as (line & Hin & -> & _).
  apply contentLines_origin in Hin as (Hl & _ & Hr).
  exists line. auto using ReportFacts.activeAfter_None.
Qed.

(** C9.  A header line of a section other than the summary title only
    switches the active section; a summary line sets the summary title to
    its stripped text and leaves the intro active.  Every element of every
    list of the result is the stripped text of a line that is not a header,
    and the summary title is the stripped last summary line.  Scenario C
    gives a title that contains [Mild infection], the finding
    [Elevated WBC] and the diagnosis [Viral infection (med)]. *)
Theorem report_headers_consumed :
  (forall st line sec,
      truthy line = true ->
      Report.resolveReportSection line = Some sec ->
      Report.step st line =
      match sec with
      | Report.sec_summaryTitle =>
          (Report.sec_intro,
           Report.setSummaryTitle (stripMarkers line) (snd st))
      | _ => (sec, snd st)
      end)
  /\ (forall text x,
         let r := Report.buildReportStructure (Some text) in
         In x (Report.intro r ++ Report.findings r ++ Report.diagnoses r
                 ++ Report.medications r ++ Report.followups r) ->
         exists line,
           In line (List.map trim (splitLines text))
           /\ Report.resolveReportSection line = None
           /\ x = stripMarkers line)
  /\ (forall text,
         Report.summaryTitle (Report.buildReportStructure (Some text))
         = last (List.map stripMarkers
                   (filter ReportSpec.isSummaryLine
                      (List.map trim (splitLines text)))) [])
  /\ (let r := Report.buildReportStructure (Some scenarioC) in
      includes (lit "Mild infection") (Report.summaryTitle r) = true
      /\ Report.findings r = [lit "Elevated WBC"]
      /\ Report.diagnoses r = [lit "Viral infection (med)"]).
Proof.
  split; [|split; [|split]].
  - intros st line sec T R. unfold Report.step. rewrite T, R.
    now destruct sec.
  - intros text x. cbv zeta. rewrite ReportFacts.report_build_contents.
    cbn [Report.intro Report.findings Report.diagnoses Report.medications
           Report.followups].
    rewrite !in_app_iff.
    intros [H|[H|[H|[H|H]]]]; exact (report_list_origin _ _ _ H).
  - intros text. now rewrite ReportFacts.report_build_contents.
  - vm_compute. auto.
Qed.

Lemma report_headers_consumed_witness :
  Report.step (Report.sec_intro, Report.base) (lit "Key Findings:")
  = (Report.sec_findings, Report.base)
  /\ exists line,
      In line (List.map trim (splitLines scenarioC))
      /\ Report.resolveReportSection line = None
      /\ lit "Elevated WBC" = stripMarkers line.
Proof.
  destruct report_headers_consumed as (Hstep & Horigin & _).
  split.
  - apply (Hstep (Report.sec_intro, Report.base) (lit "Key Findings:")
             Report.sec_findings); reflexivity.
  - apply (Horigin scenarioC (lit "Elevated WBC")).
    vm_compute. auto.
Defined.

(** ** Stored report contents are not empty *)

Lemma stored_truthy sec cl :
  Forall (fun x => x <> []) (ReportSpec.stored sec cl).
Proof.
  apply Forall_forall. intros x H.
  now apply stored_origin in H as (_ & _ & _ & Hx).
Qed.

(** C10.  Every element of the findings, diagnoses, medications and
    follow-ups of a report is a string that is not empty. *)
Theorem report_lists_nonempty_strings (rawText : option str) :
  let r := Report.buildReportStructure rawText in
  Forall (fun x => x <> []) (Report.findings r)
  /\ Forall (fun x => x <> []) (Report.diagnoses r)
  /\ Forall (fun x => x <> []) (Report.medications r)
  /\ Forall (fun x => x <> []) (Report.followups r).
Proof.
  destruct rawText as [text|]; [|now repeat split].
  cbv zeta. rewrite ReportFacts.report_build_contents.
  cbn [Report.findings Report.diagnoses Report.medications Report.followups].
  repeat split; apply stored_truthy.
Qed.

(** * Further properties of the code *)

(** ** [sanitizeReport] *)

Lemma filter_fixed (A : Type) (f : A -> bool) (l : list A) :
  filter f l = l <-> forall x, In x l -> f x = true.
Proof.
  induction l as [|a l IH]; [now split|]. simpl. split.
  - intros H. destruct (f a) eqn:E.
    + injection H as H. intros x [<-|Hx]; [exact E|]. now apply IH.
    + pose proof (filter_length_le f l) as Hl. rewrite H in Hl.
      simpl in Hl. lia.
  - intros H. rewrite (H a (or_introl eq_refl)). f_equal.
    apply IH. intros x Hx. apply H. now right.
Qed.

Lemma firstn_In (A : Type) (n : nat) (l : list A) x :
  In x (firstn n l) -> In x l.
Proof.
  revert l. induction n as [|n IH]; intros [|a l]; simpl; try easy.
  intros [<-|H]; auto.
Qed.

Lemma sanitizeReport_no_nul text : ~ In 0 (sanitizeReport text).
Proof.
  unfold sanitizeReport. intros H. apply firstn_In in H.
  apply filter_In in H as [_ H]. discriminate.
Qed.

(** X1.  The sanitized report has at most 8000 code units and no NUL. *)
Theorem sanitizeReport_bounded (text : str) :
  N.of_nat (List.length (sanitizeReport text)) <= 8000
  /\ ~ In 0 (sanitizeReport text).
Proof.
  split; [|apply sanitizeReport_no_nul].
  unfold sanitizeReport.
  pose proof (firstn_le_length (N.to_nat 8000)
                (filter (fun c => negb (c =? 0)) text)) as H.
  lia.
Qed.

(** X2.  Sanitizing twice is sanitizing once, and a report is left as it is
    exactly when it has at most 8000 code units and no NUL. *)
Theorem sanitizeReport_fixed (text : str) :
  sanitizeReport (sanitizeReport text) = sanitizeReport text
  /\ (sanitizeReport text = text <->
      N.of_nat (List.length text) <= 8000 /\ ~ In 0 text).
Proof.
  assert (Hfix : forall t,
             N.of_nat (List.length t) <= 8000 -> ~ In 0 t ->
             sanitizeReport t = t).
  { intros t Hlen Hnul. unfold sanitizeReport.
    assert (Hf : filter (fun c => negb (c =? 0)) t = t).
    { apply filter_fixed. intros x Hx.
      apply negb_true_iff, N.eqb_neq. intros ->. now apply Hnul. }
    rewrite Hf. apply firstn_all2. lia. }
  split.
  - apply Hfix; apply sanitizeReport_bounded.
  - split.
    + intros H. rewrite <- H. apply sanitizeReport_bounded.
    + intros [Hlen Hnul]. now apply Hfix.
Qed.

Lemma sanitizeReport_fixed_witness :
  sanitizeReport (lit "WBC 12.3") = lit "WBC 12.3".
Proof.
  apply (proj2 (proj2 (sanitizeReport_fixed (lit "WBC 12.3")))).
  split.
  - vm_compute. discriminate.
  - vm_compute. intuition discriminate.
Defined.

(** ** [extractGeminiText] *)

Lemma fold_pushPart parts textParts :
  fold_left pushPart parts textParts
  = textParts ++ flat_map partTexts parts.
Proof.
  revert textParts. induction parts as [|part parts IH]; intros textParts.
  - simpl. now rewrite app_nil_r.
  - simpl. rewrite IH. destruct part as [text|]; simpl.
    + destruct (truthy (trim text)); simpl;
        [now rewrite <- app_assoc|reflexivity].
    + reflexivity.
Qed.

Lemma fold_pushCandidate candidates textParts :
  fold_left pushCandidate candidates textParts
  = textParts ++ flat_map candidateTexts candidates.
Proof.
  revert textParts.
  induction candidates as [|candidate candidates IH]; intros textParts.
  - simpl. now rewrite app_nil_r.
  - simpl. rewrite IH. unfold pushCandidate at 1.
    destruct candidate as [parts|]; simpl.
    + now rewrite fold_pushPart, <- app_assoc.
    + reflexivity.
Qed.

Lemma extractGeminiText_texts payload :
  extractGeminiText payload = trim (join [LF; LF] (payloadTexts payload)).
Proof.
  unfold extractGeminiText. rewrite fold_pushCandidate.
  now destruct payload.
Qed.

Lemma trim_fixed_trimEnd x : trim x = x -> trimEnd x = x.
Proof.
  intros H.
  assert (E : trimEnd (trim x) = trim x)
    by apply trimEnd_dropWhile, trimEnd_idem.
  now rewrite H in E.
Qed.

Lemma trim_fixed_head x : trim x = x -> headIs isWhite x = false.
Proof. intros <-. apply dropWhile_head. Qed.

Lemma trim_fixed_intro x :
  trimEnd x = x -> headIs isWhite x = false -> trim x = x.
Proof.
  intros He Hh. unfold trim, trimStart. rewrite He.
  destruct x as [|c x]; [reflexivity|]. simpl in *. now rewrite Hh.
Qed.

Lemma trimEnd_app_fixed a b :
  trimEnd b = b -> b <> [] -> trimEnd (a ++ b) = a ++ b.
Proof.
  intros Hb Hne. induction a as [|c a IH]; [exact Hb|].
  simpl. rewrite IH. destruct (a ++ b) eqn:E; [|reflexivity].
  apply app_eq_nil in E as [_ E]. contradiction.
Qed.

Lemma join_pieces_nonempty sep x xs : x <> [] -> join sep (x :: xs) <> [].
Proof.
  intros Hx. destruct xs as [|y ys]; [exact Hx|].
  change (join sep (x :: y :: ys)) with (x ++ sep ++ join sep (y :: ys)).
  intros E. apply app_eq_nil in E as [E _]. contradiction.
Qed.

Lemma join_pieces_trimEnd sep pieces :
  Forall isPiece pieces ->
  trimEnd (join sep pieces) = join sep pieces.
Proof.
  induction 1 as [|x xs [Hx Ht] Hxs IH]; [reflexivity|].
  destruct xs as [|y ys]; [now apply trim_fixed_trimEnd|].
  change (join sep (x :: y :: ys)) with (x ++ sep ++ join sep (y :: ys)).
  rewrite !app_assoc. apply trimEnd_app_fixed; [exact IH|].
  apply join_pieces_nonempty. now inversion Hxs as [|? ? [? _]].
Qed.

(** Joining pieces that are trimmed and not empty gives a trimmed string. *)
Lemma join_pieces_trim sep pieces :
  Forall isPiece pieces -> trim (join sep pieces) = join sep pieces.
Proof.
  intros H. apply trim_fixed_intro; [now apply join_pieces_trimEnd|].
  destruct H as [|x xs [Hx Ht] Hxs]; [reflexivity|].
  apply trim_fixed_head in Ht.
  destruct xs as [|y ys]; [exact Ht|].
  change (join sep (x :: y :: ys)) with (x ++ sep ++ join sep (y :: ys)).
  destruct x; [contradiction|exact Ht].
Qed.

Lemma payloadTexts_pieces payload : Forall isPiece (payloadTexts payload).
Proof.
  apply Forall_forall. intros x Hx.
  destruct payload as [candidates|]; [|contradiction].
  simpl in Hx. apply in_flat_map in Hx as ([parts|] & _ & Hx);
    [|contradiction].
  simpl in Hx. apply in_flat_map in Hx as ([text|] & _ & Hx);
    [|contradiction].
  simpl in Hx. destruct (truthy (trim text)) eqn:T; [|contradiction].
  destruct Hx as [<-|[]]. split.
  - intros E. now rewrite E in T.
  - apply trim_idem.
Qed.

(** X3.  The extracted text is the trimmed texts of the reply that are not
    blank, in the order of the reply, joined by an empty line: the final
    [trim] removes nothing. *)
Theorem extractGeminiText_joined (payload : Payload) :
  extractGeminiText payload = join [LF; LF] (payloadTexts payload).
Proof.
  rewrite extractGeminiText_texts.
  apply join_pieces_trim, payloadTexts_pieces.
Qed.

(** X4.  The extracted text is empty exactly when every text of the reply
    is blank (in particular when the reply has no candidate or no part). *)
Theorem extractGeminiText_empty (payload : Payload) :
  extractGeminiText payload = [] <->
  (forall parts text,
      In (Some parts) (candidatesOf payload) ->
      In (Some text) parts ->
      trim text = []).
Proof.
  rewrite extractGeminiText_joined. split.
  - intros E parts text Hc Hp.
    destruct (trim text) as [|c t] eqn:T; [reflexivity|].
    assert (Hin : In (trim text) (payloadTexts payload)).
    { destruct payload as [candidates|]; [|contradiction].
      simpl in *. apply in_flat_map. exists (Some parts). split; [exact Hc|].
      simpl. apply in_flat_map. exists (Some text). split; [exact Hp|].
      simpl. rewrite T. now left. }
    destruct (payloadTexts payload) as [|x xs] eqn:P; [contradiction|].
    pose proof (payloadTexts_pieces payload) as Hpieces.
    rewrite P in Hpieces. inversion Hpieces as [|? ? [Hx _] _]; subst.
    now destruct (join_pieces_nonempty [LF; LF] x xs Hx).
  - intros H.
    destruct (payloadTexts payload) as [|x xs] eqn:P; [reflexivity|].
    assert (Hin : In x (payloadTexts payload)) by (rewrite P; now left).
    destruct payload as [candidates|]; [|contradiction].
    simpl in Hin. apply in_flat_map in Hin as ([parts|] & Hc & Hin);
      [|contradiction].
    simpl in Hin. apply in_flat_map in Hin as ([text|] & Hp & Hin);
      [|contradiction].
    simpl in Hin. rewrite (H parts text Hc Hp) in Hin. contradiction.
Qed.

(** ** The badge of a condition *)

Lemma startsWith_nonwhite_white w c s :
  noWhite w = true -> truthy w = true -> isWhite c = true ->
  startsWith w (c :: s) = false.
Proof.
  destruct w as [|p w]; [discriminate|]. simpl. intros H _ Hc.
  apply andb_prop in H as [Hp _]. apply negb_true_iff in Hp.
  destruct (N.eqb_spec p c) as [->|]; [congruence|reflexivity].
Qed.

Lemma startsWith_trimEnd w y :
  noWhite w = true -> startsWith w (trimEnd y) = startsWith w y.
Proof.
  revert y. induction w as [|p w IH]; intros y Hw; [reflexivity|].
  simpl in Hw. apply andb_prop in Hw as [Hp Hw]. apply negb_true_iff in Hp.
  destruct y as [|c y]; [reflexivity|].
  specialize (IH y Hw). simpl.
  destruct (trimEnd y) as [|d r] eqn:E.
  - destruct (isWhite c) eqn:Wc.
    + destruct (N.eqb_spec p c) as [->|]; [congruence|reflexivity].
    + simpl. now rewrite IH.
  - simpl. now rewrite <- IH.
Qed.

Lemma includes_unfold w s :
  includes w s
  = startsWith w s || match s with [] => false | _ :: r => includes w r end.
Proof. destruct s; reflexivity. Qed.

Lemma includes_nil_r w : includes w [] = startsWith w [].
Proof. simpl. apply orb_false_r. Qed.

Lemma includes_trimEnd w x :
  noWhite w = true -> includes w (trimEnd x) = includes w x.
Proof.
  intros Hw. induction x as [|c x IH]; [reflexivity|].
  cbn [includes]. rewrite <- IH, <- (startsWith_trimEnd w (c :: x) Hw).
  simpl. destruct (trimEnd x) as [|d r] eqn:E.
  - destruct (isWhite c).
    + rewrite includes_nil_r. now destruct (startsWith w []).
    + cbn [includes]. now rewrite !orb_false_r.
  - reflexivity.
Qed.

Lemma includes_dropWhile w x :
  noWhite w = true -> truthy w = true ->
  includes w (dropWhile isWhite x) = includes w x.
Proof.
  intros Hw Hne. induction x as [|c x IH]; [reflexivity|].
  simpl dropWhile. destruct (isWhite c) eqn:Wc; [|reflexivity].
  rewrite IH. cbn [includes].
  now rewrite (startsWith_nonwhite_white w c x Hw Hne Wc).
Qed.

(** Trimming does not change whether a word without white space occurs. *)
Lemma includes_trim w x :
  noWhite w = true -> truthy w = true ->
  includes w (trim x) = includes w x.
Proof.
  intros Hw Hne. unfold trim, trimStart.
  now rewrite includes_dropWhile, includes_trimEnd.
Qed.

Lemma startsWith_app_l a b s :
  startsWith (a ++ b) s = true -> startsWith a s = true.
Proof.
  revert s. induction a as [|p a IH]; intros s; [reflexivity|].
  destruct s as [|c s]; [discriminate|]. simpl.
  intros H. apply andb_prop in H as [-> H]. now apply IH.
Qed.

Lemma includes_app_l a b s :
  includes (a ++ b) s = true -> includes a s = true.
Proof.
  induction s as [|c s IH].
  - simpl. rewrite !orb_false_r. apply startsWith_app_l.
  - cbn [includes]. intros H. apply orb_prop in H as [H|H].
    + now rewrite (startsWith_app_l a b _ H).
    + rewrite (IH H). apply orb_true_r.
Qed.

(** The badge of a record whose score is the one of its label. *)
Lemma conditionItemMeta_score condition :
  confidencePercent condition = mapConfidence (confidenceLabel condition) ->
  conditionItemMeta condition = metaOfScore (confidencePercent condition).
Proof.
  intros ->. unfold conditionItemMeta, conditionItemLabel.
  destruct (confidenceLabel condition) as [|c l] eqn:E; [reflexivity|].
  cbn [truthy]. unfold mapConfidenceMeta, mapConfidence.
  rewrite !includes_trim by reflexivity.
  destruct (includes (lit "high") (toLowerCase (c :: l))); [reflexivity|].
  destruct (includes (lit "med") (toLowerCase (c :: l))) eqn:M.
  - now rewrite orb_true_r.
  - destruct (includes (lit "medium") (toLowerCase (c :: l))) eqn:M'.
    + apply (includes_app_l (lit "med") (lit "ium")) in M'. congruence.
    + simpl orb.
      now destruct (includes (lit "low") (toLowerCase (c :: l))).
Qed.

Lemma parseCondition_score line r :
  parseCondition line = Some r ->
  confidencePercent r = mapConfidence (confidenceLabel r).
Proof.
  unfold parseCondition.
  destruct (truthy (cleanBullet line)); [|discriminate]. cbn [negb].
  destruct (matchBold (cleanBullet line)) as [[whole group]|];
    intros [= <-]; reflexivity.
Qed.

(** X5.  The badge that [ConditionItem] shows for a record of
    [parseCondition] is the one of the record's score: High for 75, Med for
    55, Low for 35 and Est. for 60. *)
Theorem conditionItem_badge_agrees (line : str) (r : ConditionRecord) :
  parseCondition line = Some r ->
  conditionItemMeta r = metaOfScore (confidencePercent r).
Proof.
  intros H. apply conditionItemMeta_score, (parseCondition_score line r H).
Qed.

Lemma conditionItem_badge_agrees_witness :
  conditionItemMeta
    (mkCondition (lit "Flu") (lit "fever") (lit "HIGH") 75)
  = metaOfScore 75.
Proof.
  apply (conditionItem_badge_agrees (lit "- Flu **HIGH:** - fever")).
  reflexivity.
Defined.

(** ** Paragraphs and summary of the prediction page *)

Lemma trimEnd_nil_white s : trimEnd s = [] -> forallb isWhite s = true.
Proof.
  induction s as [|c s IH]; [reflexivity|]. simpl.
  destruct (trimEnd s) as [|d r]; [|discriminate].
  destruct (isWhite c); [|discriminate]. intros _. now apply IH.
Qed.

Lemma dropWhile_nil_forallb p s : dropWhile p s = [] -> forallb p s = true.
Proof.
  induction s as [|c s IH]; [reflexivity|]. simpl.
  destruct (p c); [exact IH|discriminate].
Qed.

Lemma trim_nil_white s : trim s = [] -> forallb isWhite s = true.
Proof.
  unfold trim, trimStart. intros H.
  apply dropWhile_nil_forallb in H.
  apply trimEnd_all_white in H. rewrite trimEnd_idem in H.
  now apply trimEnd_nil_white.
Qed.

Lemma trim_truthy_char s :
  truthy (trim s) = true -> exists c, In c s /\ isWhite c = false.
Proof.
  induction s as [|c s IH]; [discriminate|].
  intros H. destruct (isWhite c) eqn:Wc.
  - destruct (forallb isWhite s) eqn:E.
    + rewrite trim_all_white in H; [discriminate|]. simpl. now rewrite Wc.
    + destruct IH as (d & Hd & Hw).
      * destruct (trim s) eqn:T; [|reflexivity].
        apply trim_nil_white in T. congruence.
      * exists d. split; [now right|exact Hw].
  - exists c. split; [now left|exact Wc].
Qed.

Lemma char_trim_truthy s c :
  In c s -> isWhite c = false -> truthy (trim s) = true.
Proof.
  intros Hc Hw. destruct (trim s) eqn:E; [|reflexivity].
  apply trim_nil_white in E. rewrite forallb_forall in E.
  rewrite (E c Hc) in Hw. discriminate.
Qed.

Lemma consHead_In c parts chunk :
  In chunk parts -> exists chunk', In chunk' (consHead c parts)
                                   /\ incl chunk chunk'.
Proof.
  destruct parts as [|p ps]; [contradiction|]. simpl.
  intros [<-|H].
  - exists (c :: p). split; [now left|]. now apply incl_tl, incl_refl.
  - exists chunk. split; [now right|apply incl_refl].
Qed.

(** A character that is not white space is in one of the chunks. *)
Lemma splitParagraphs_char inBreak s c :
  In c s -> isWhite c = false ->
  exists chunk, In chunk (splitParagraphs inBreak s) /\ In c chunk.
Proof.
  revert inBreak. induction s as [|x s IH]; intros inBreak Hc Hw;
    [contradiction|].
  cbn [splitParagraphs]. destruct Hc as [->|Hc].
  - replace (c =? LF) with false
      by (symmetry; apply N.eqb_neq; intros ->; discriminate).
    rewrite andb_false_r. cbn [andb].
    destruct (splitParagraphs false s) as [|p ps]; simpl.
    + exists [c]. split; now left.
    + exists (c :: p). split; now left.
  - destruct (inBreak && (x =? LF)); [now apply IH|].
    destruct ((x =? LF) && headIs (N.eqb LF) s).
    + destruct (IH true Hc Hw) as (chunk & H1 & H2).
      exists chunk. split; [now right|exact H2].
    + destruct (IH false Hc Hw) as (chunk & H1 & H2).
      destruct (consHead_In x _ _ H1) as (chunk' & H3 & H4).
      exists chunk'. split; [exact H3|now apply H4].
Qed.

(** X6.  Every paragraph of [formattedResult] is trimmed and not empty, and
    there is no paragraph exactly when the result is blank. *)
Theorem formattedResult_paragraphs (result : str) :
  Forall isPiece (formattedResult result)
  /\ (formattedResult result = [] <-> hasResult result = false).
Proof.
  unfold formattedResult. split.
  - destruct (hasResult result); cbn [negb]; [|constructor].
    apply Forall_forall. intros x Hx.
    apply filter_In in Hx as [Hx T].
    apply in_map_iff in Hx as (chunk & <- & _). split.
    + intros E. now rewrite E in T.
    + apply trim_idem.
  - destruct (hasResult result) eqn:H; cbn [negb]; [|now split].
    split; [|discriminate]. intros E. exfalso.
    destruct (trim_truthy_char result H) as (c & Hc & Hw).
    destruct (splitParagraphs_char false result c Hc Hw)
      as (chunk & Hchunk & Hin).
    assert (Hp : In (trim chunk)
                   (filter truthy
                      (List.map trim (splitParagraphs false result)))).
    { apply filter_In. split; [now apply in_map|].
      exact (char_trim_truthy chunk c Hin Hw). }
    now rewrite E in Hp.
Qed.

(** X7.  For a result that is not blank, the summary text of the ranked
    view, computed with the paragraphs of [formattedResult] as fallback, is
    never empty, whatever the parsed data is. *)
Theorem summaryText_nonempty (data : Prediction.Result) (result : str) :
  hasResult result = true ->
  summaryText data (formattedResult result) <> [].
Proof.
  intros H. unfold summaryText.
  destruct (join [SP] (Prediction.introParagraphs data)) as [|c j] eqn:J;
    [|discriminate].
  cbn [truthy].
  destruct (formattedResult_paragraphs result) as [Hall Hnil].
  destruct (formattedResult result) as [|first rest] eqn:F.
  - destruct Hnil as [Hnil _]. rewrite (Hnil eq_refl) in H. discriminate.
  - inversion Hall as [|? ? [Hne _] _]; subst.
    destruct first; [contradiction|discriminate].
Qed.

Lemma summaryText_nonempty_witness :
  summaryText Prediction.base (formattedResult scenarioB) <> [].
Proof.
  apply (summaryText_nonempty Prediction.base scenarioB).
  reflexivity.
Defined.

Lemma startsWith_self_app p b : startsWith p (p ++ b) = true.
Proof.
  induction p as [|c p IH]; [reflexivity|]. simpl.
  now rewrite N.eqb_refl, IH.
Qed.

Lemma includes_here p s : startsWith p s = true -> includes p s = true.
Proof. intros H. rewrite includes_unfold, H. reflexivity. Qed.

Lemma includes_app_pre p pre s :
  includes p s = true -> includes p (pre ++ s) = true.
Proof.
  intros H. induction pre as [|c pre IH]; [exact H|].
  cbn [app includes]. rewrite IH. apply orb_true_r.
Qed.

Lemma includes_join sep parts p :
  In p parts -> includes p (join sep parts) = true.
Proof.
  induction parts as [|x xs IH]; [contradiction|].
  intros Hin. destruct xs as [|y ys].
  - destruct Hin as [->|[]]. simpl.
    apply includes_here. rewrite <- (app_nil_r p) at 2.
    apply startsWith_self_app.
  - change (join sep (x :: y :: ys)) with (x ++ sep ++ join sep (y :: ys)).
    destruct Hin as [->|Hin].
    + apply includes_here, startsWith_self_app.
    + rewrite app_assoc. apply includes_app_pre. now apply IH.
Qed.

(** X8.  When the parsed data has intro paragraphs, the summary text is
    all of them joined, so every supporting paragraph shown below the
    summary text already occurs inside it. *)
Theorem summarySupporting_repeated
    (data : Prediction.Result) (fallbackParagraphs : list str) (p : str) :
  In p (summarySupporting data) ->
  summaryText data fallbackParagraphs
  = join [SP] (Prediction.introParagraphs data)
  /\ includes p (summaryText data fallbackParagraphs) = true.
Proof.
  unfold summarySupporting, summaryText. intros Hin.
  destruct (Prediction.introParagraphs data) as [|x [|y ys]] eqn:E;
    try contradiction.
  assert (T : truthy (join [SP] (x :: y :: ys)) = true).
  { change (join [SP] (x :: y :: ys)) with (x ++ [SP] ++ join [SP] (y :: ys)).
    now destruct x. }
  rewrite T. split; [reflexivity|].
  apply includes_join. now right.
Qed.

Lemma summarySupporting_repeated_witness :
  includes (lit "Rest.")
    (summaryText
       (Prediction.mkResult [lit "Mild."; lit "Rest."] [] [] [] [] []) [])
  = true.
Proof.
  apply (summarySupporting_repeated
           (Prediction.mkResult [lit "Mild."; lit "Rest."] [] [] [] [] [])
           [] (lit "Rest.")).
  simpl. now left.
Defined.

(** ** Where the stored strings of prediction mode come from *)

Lemma resolveSection_None_headers line sec :
  Prediction.resolveSection line = None ->
  PredictionSpec.headerOf sec line = false.
Proof.
  unfold Prediction.resolveSection, Prediction.checks. cbn [find snd fst].
  destruct (Prediction.reConditions line) eqn:E1; [discriminate|].
  destruct (Prediction.reRedFlags line) eqn:E2; [discriminate|].
  destruct (Prediction.reSelfCare line) eqn:E3; [discriminate|].
  destruct (Prediction.reSpecialist line) eqn:E4; [discriminate|].
  destruct (Prediction.reDisclaimer line) eqn:E5; [discriminate|].
  intros _. now destruct sec.
Qed.

Lemma sectionLines_origin sec text t :
  In t (PredictionSpec.sectionLines sec text) ->
  exists line,
    In line (splitLines text) /\ t = trim line /\ t <> []
    /\ Prediction.resolveSection t = None.
Proof.
  unfold PredictionSpec.sectionLines, PredictionSpec.contents. intros H.
  apply (linesOf_In _ _ PredictionFacts.prediction_Section_eqb_true) in H.
  apply contentLines_origin in H as (Hin & T & R).
  apply in_map_iff in Hin as (line & <- & Hline).
  exists line. repeat split; auto.
  intros E. now rewrite E in T.
Qed.

(** X9.  Every string of the intro paragraphs, red flags, self-care and
    specialist lists is the normalized text of an input line that is not
    blank and on which no header expression matches; every condition record
    is parsed from such a line that starts with a bullet or a digit.  A
    line that mentions, say, a doctor is therefore never stored. *)
Theorem prediction_contents_origin (text : str) :
  let r := Prediction.buildStructuredResult (Some text) in
  (forall x,
      In x (Prediction.introParagraphs r ++ Prediction.redFlags r
              ++ Prediction.selfCare r ++ Prediction.specialist r) ->
      exists line,
        In line (splitLines text) /\ trim line <> []
        /\ (forall sec, PredictionSpec.headerOf sec (trim line) = false)
        /\ x = cleanBullet (trim line))
  /\ (forall c,
         In c (Prediction.conditions r) ->
         exists line,
           In line (splitLines text)
           /\ (forall sec, PredictionSpec.headerOf sec (trim line) = false)
           /\ headIs Prediction.isItemStart (trim line) = true
           /\ parseCondition (trim line) = Some c).
Proof.
  cbv zeta. rewrite PredictionFacts.prediction_build_contents.
  cbn [Prediction.introParagraphs Prediction.redFlags Prediction.selfCare
         Prediction.specialist Prediction.conditions].
  split.
  - intros x. rewrite !in_app_iff.
    intros [H|[H|[H|H]]];
      apply in_map_iff in H as (t & <- & H);
      apply sectionLines_origin in H as (line & Hl & -> & Hne & R);
      exists line; repeat split; auto;
      intros sec; now apply resolveSection_None_headers.
  - intros c H. apply in_flat_map in H as (t & H & Hc).
    apply sectionLines_origin in H as (line & Hl & -> & Hne & R).
    exists line. unfold PredictionSpec.conditionOf in Hc.
    destruct (headIs Prediction.isItemStart (trim line)); [|contradiction].
    destruct (parseCondition (trim line)) as [parsed|]; [|contradiction].
    destruct Hc as [<-|[]]. repeat split; auto.
    intros sec. now apply resolveSection_None_headers.
Qed.

(** ** Stored strings are normalized *)

Lemma cleanBullet_head s : headIs isBulletChar (cleanBullet s) = false.
Proof.
  unfold cleanBullet.
  pose proof (dropWhile_head isBulletChar s) as Hh.
  destruct (dropWhile isBulletChar s) as [|c r]; [reflexivity|].
  simpl in Hh. pose proof (isBulletChar_white c Hh) as W.
  simpl collapseWhite. rewrite W, (trim_cons_nonwhite _ _ W). exact Hh.
Qed.

Lemma cleanBullet_normal s : normalWhite (cleanBullet s) = true.
Proof. apply normalWhite_trim, collapseWhite_normal. Qed.

Lemma cleanBullet_trim s : trim (cleanBullet s) = cleanBullet s.
Proof. apply trim_idem. Qed.

(** X10.  Every string of the four string lists of a prediction result has
    no white space at either end, only single spaces inside, and no
    leading bullet, digit, dot or closing parenthesis. *)
Theorem prediction_strings_normalized (rawText : option str) (x : str) :
  let r := Prediction.buildStructuredResult rawText in
  In x (Prediction.introParagraphs r ++ Prediction.redFlags r
          ++ Prediction.selfCare r ++ Prediction.specialist r) ->
  trim x = x /\ normalWhite x = true /\ headIs isBulletChar x = false.
Proof.
  destruct rawText as [text|]; [|contradiction].
  cbv zeta. rewrite PredictionFacts.prediction_build_contents.
  cbn [Prediction.introParagraphs Prediction.redFlags Prediction.selfCare
         Prediction.specialist].
  rewrite !in_app_iff.
  intros [H|[H|[H|H]]]; apply in_map_iff in H as (t & <- & _);
    repeat split;
    auto using cleanBullet_trim, cleanBullet_normal, cleanBullet_head.
Qed.

Lemma prediction_strings_normalized_witness :
  trim (lit "Chest pain") = lit "Chest pain"
  /\ normalWhite (lit "Chest pain") = true
  /\ headIs isBulletChar (lit "Chest pain") = false.
Proof.
  apply (prediction_strings_normalized (Some ruleAfterRedFlag)).
  vm_compute. now left.
Defined.

(** X11.  Every string of the intro, findings, diagnoses, medications and
    follow-ups of a report, and its summary title, has no white space at
    either end and only single spaces inside. *)
Theorem report_strings_normalized (rawText : option str) (x : str) :
  let r := Report.buildReportStructure rawText in
  In x (Report.summaryTitle r :: Report.intro r ++ Report.findings r
          ++ Report.diagnoses r ++ Report.medications r
          ++ Report.followups r) ->
  trim x = x /\ normalWhite x = true.
Proof.
  assert (Hs : forall l, trim (stripMarkers l) = stripMarkers l
                         /\ normalWhite (stripMarkers l) = true)
    by (intros l; split; [apply trim_idem|apply stripMarkers_normal]).
  destruct rawText as [text|].
  2:{ cbv zeta. simpl. intros [<-|[]]. now split. }
  cbv zeta. rewrite ReportFacts.report_build_contents.
  cbn [Report.summaryTitle Report.intro Report.findings Report.diagnoses
         Report.medications Report.followups].
  intros [<-|H].
  - generalize (filter ReportSpec.isSummaryLine
                  (List.map trim (splitLines text))).
    intros ls.
    assert (G : forall d, trim d = d /\ normalWhite d = true ->
                          trim (last (List.map stripMarkers ls) d)
                          = last (List.map stripMarkers ls) d
                          /\ normalWhite (last (List.map stripMarkers ls) d)
                             = true).
    { induction ls as [|l ls IH]; intros d Hd; [exact Hd|].
      cbn [List.map]. rewrite ReportFacts.last_cons. apply IH, Hs. }
    apply G. now split.
  - rewrite !in_app_iff in H.
    destruct H as [H|[H|[H|[H|H]]]];
      apply stored_origin in H as (line & _ & -> & _); apply Hs.
Qed.

Lemma report_strings_normalized_witness :
  trim (lit "Elevated WBC") = lit "Elevated WBC"
  /\ normalWhite (lit "Elevated WBC") = true.
Proof.
  apply (report_strings_normalized (Some scenarioC)).
  vm_compute. auto.
Defined.

(** ** Line endings and appended lines *)

Lemma splitLines_nonempty s : splitLines s <> [].
Proof.
  induction s as [|c s IH]; [discriminate|]. simpl.
  destruct (c =? LF); [discriminate|].
  destruct ((c =? CR) && headIs (N.eqb LF) s); [exact IH|].
  destruct (splitLines s); discriminate.
Qed.

(** The lines of [c :: s] when [c] does not end a line. *)
Lemma splitLines_cons c s :
  (c =? LF) = false -> (c =? CR) && headIs (N.eqb LF) s = false ->
  splitLines (c :: s) = consHead c (splitLines s).
Proof. intros H1 H2. simpl. now rewrite H1, H2. Qed.

Lemma consHead_trimEnd c X Y :
  List.map trimEnd X = List.map trimEnd Y ->
  List.map trimEnd (consHead c X) = List.map trimEnd (consHead c Y).
Proof.
  destruct X as [|x xs], Y as [|y ys]; try discriminate; [reflexivity|].
  simpl. intros [= Hx Hxs]. now rewrite Hx, Hxs.
Qed.

Lemma consHead_app c X Y :
  X <> [] -> consHead c (X ++ Y) = consHead c X ++ Y.
Proof. destruct X; [contradiction|reflexivity]. Qed.

Lemma splitLines_LF s : splitLines (LF :: s) = [] :: splitLines s.
Proof. reflexivity. Qed.

Lemma splitLines_CR_LF s :
  headIs (N.eqb LF) s = true -> splitLines (CR :: s) = splitLines s.
Proof. intros H. simpl. now rewrite H. Qed.

(** A line feed after [a] ends the last line of [a]; up to white space at
    the end of the lines, the lines of [a] are followed by those of [b]. *)
Lemma splitLines_app_LF a b :
  List.map trimEnd (splitLines (a ++ LF :: b))
  = List.map trimEnd (splitLines a) ++ List.map trimEnd (splitLines b).
Proof.
  induction a as [|c a IH]; [reflexivity|].
  change ((c :: a) ++ LF :: b) with (c :: (a ++ LF :: b)).
  destruct (N.eqb_spec c LF) as [->|Hc].
  - rewrite !splitLines_LF. cbn [List.map app]. now rewrite IH.
  - apply N.eqb_neq in Hc.
    destruct ((c =? CR) && headIs (N.eqb LF) (a ++ LF :: b)) eqn:E2.
    + apply andb_prop in E2 as [Ec Eh]. apply N.eqb_eq in Ec. subst c.
      rewrite (splitLines_CR_LF _ Eh), IH.
      destruct a as [|d a].
      * reflexivity.
      * now rewrite (splitLines_CR_LF (d :: a)) by exact Eh.
    + rewrite (splitLines_cons c _ Hc E2).
      assert (E3 : (c =? CR) && headIs (N.eqb LF) a = false).
      { destruct a as [|d a]; [apply andb_false_r|exact E2]. }
      rewrite (splitLines_cons c _ Hc E3).
      rewrite <- map_app, <- consHead_app by apply splitLines_nonempty.
      apply consHead_trimEnd. now rewrite map_app.
Qed.

Lemma headIs_app (p : N -> bool) a b :
  a <> [] -> headIs p (a ++ b) = headIs p a.
Proof. destruct a; [contradiction|reflexivity]. Qed.

(** A carriage return at the very end only adds white space to the last
    line. *)
Lemma splitLines_snoc_CR a :
  List.map trimEnd (splitLines (a ++ [CR]))
  = List.map trimEnd (splitLines a).
Proof.
  induction a as [|c a IH]; [reflexivity|].
  change ((c :: a) ++ [CR]) with (c :: (a ++ [CR])).
  assert (Hh : headIs (N.eqb LF) (a ++ [CR]) = headIs (N.eqb LF) a)
    by (destruct a; reflexivity).
  destruct (N.eqb_spec c LF) as [->|Hc].
  - rewrite !splitLines_LF. cbn [List.map]. now rewrite IH.
  - apply N.eqb_neq in Hc.
    destruct ((c =? CR) && headIs (N.eqb LF) a) eqn:E2.
    + apply andb_prop in E2 as [Ec Eh]. apply N.eqb_eq in Ec. subst c.
      rewrite (splitLines_CR_LF a Eh).
      rewrite splitLines_CR_LF by now rewrite Hh.
      exact IH.
    + rewrite (splitLines_cons c a Hc E2).
      rewrite splitLines_cons by (auto; now rewrite Hh).
      apply (consHead_trimEnd c _ _ IH).
Qed.

Lemma splitLines_app_CRLF a b :
  List.map trimEnd (splitLines (a ++ CR :: LF :: b))
  = List.map trimEnd (splitLines a) ++ List.map trimEnd (splitLines b).
Proof.
  change (a ++ CR :: LF :: b) with (a ++ [CR] ++ LF :: b).
  now rewrite app_assoc, splitLines_app_LF, splitLines_snoc_CR.
Qed.

Lemma map_trim_trimEnd (ls : list str) :
  List.map trim ls = List.map trimStart (List.map trimEnd ls).
Proof. now rewrite map_map. Qed.

Lemma splitLines_join sep ls :
  sep = [LF] \/ sep = [CR; LF] ->
  ls <> [] ->
  List.map trimEnd (splitLines (join sep ls))
  = flat_map (fun l => List.map trimEnd (splitLines l)) ls.
Proof.
  intros Hsep Hne. induction ls as [|x xs IH]; [contradiction|].
  destruct xs as [|y ys].
  - simpl. now rewrite app_nil_r.
  - change (join sep (x :: y :: ys)) with (x ++ sep ++ join sep (y :: ys)).
    cbn [flat_map] in *. rewrite <- IH by discriminate.
    destruct Hsep as [-> | ->]; cbn [app].
    + apply splitLines_app_LF.
    + apply splitLines_app_CRLF.
Qed.

(** The trimmed lines of a text do not depend on the line ending. *)
Lemma trimmed_lines_join ls :
  List.map trim (splitLines (join [CR; LF] ls))
  = List.map trim (splitLines (join [LF] ls)).
Proof.
  destruct ls as [|x xs]; [reflexivity|].
  rewrite !map_trim_trimEnd.
  rewrite !splitLines_join by (auto; discriminate). reflexivity.
Qed.

(** X12.  Both parsers return the same result for lines joined by carriage
    return and line feed as for the same lines joined by line feeds. *)
Theorem line_ending_independent (ls : list str) :
  Prediction.buildStructuredResult (Some (join [CR; LF] ls))
  = Prediction.buildStructuredResult (Some (join [LF] ls))
  /\ Report.buildReportStructure (Some (join [CR; LF] ls))
     = Report.buildReportStructure (Some (join [LF] ls)).
Proof.
  split.
  - rewrite !PredictionFacts.prediction_build_contents.
    unfold PredictionSpec.sectionLines, PredictionSpec.contents.
    now rewrite trimmed_lines_join.
  - rewrite !ReportFacts.report_build_contents.
    unfold ReportSpec.contents. cbv zeta.
    now rewrite trimmed_lines_join.
Qed.

Lemma contentLines_app (S : Type) (resolve : str -> option S) sec l1 l2 :
  exists sec',
    contentLines resolve sec (l1 ++ l2)
    = contentLines resolve sec l1 ++ contentLines resolve sec' l2.
Proof.
  revert sec. induction l1 as [|l l1 IH]; intros sec.
  - now exists sec.
  - cbn [app contentLines]. destruct (negb (truthy l)); [apply IH|].
    destruct (resolve l) as [s|]; [apply IH|].
    destruct (IH sec) as [sec' E]. exists sec'. now rewrite E.
Qed.

Lemma linesOf_app (S : Type) (S_eqb : S -> S -> bool) x
    (a b : list (S * str)) :
  linesOf S_eqb x (a ++ b) = linesOf S_eqb x a ++ linesOf S_eqb x b.
Proof. unfold linesOf. now rewrite filter_app, map_app. Qed.

Lemma trimmed_lines_app_LF a b :
  List.map trim (splitLines (a ++ LF :: b))
  = List.map trim (splitLines a) ++ List.map trim (splitLines b).
Proof.
  rewrite !map_trim_trimEnd, splitLines_app_LF. apply map_app.
Qed.

(** X13.  Lines appended to a text only add to the lists of a prediction
    result: what was parsed from the text stays, in the same order, at the
    front of every list. *)
Theorem prediction_appended_lines_extend (a b : str) :
  let r1 := Prediction.buildStructuredResult (Some a) in
  let r2 := Prediction.buildStructuredResult (Some (a ++ LF :: b)) in
  exists i c f s p,
    Prediction.introParagraphs r2 = Prediction.introParagraphs r1 ++ i
    /\ Prediction.conditions r2 = Prediction.conditions r1 ++ c
    /\ Prediction.redFlags r2 = Prediction.redFlags r1 ++ f
    /\ Prediction.selfCare r2 = Prediction.selfCare r1 ++ s
    /\ Prediction.specialist r2 = Prediction.specialist r1 ++ p.
Proof.
  cbv zeta. rewrite !PredictionFacts.prediction_build_contents.
  unfold PredictionSpec.sectionLines, PredictionSpec.contents.
  rewrite trimmed_lines_app_LF.
  destruct (contentLines_app _ Prediction.resolveSection Prediction.sec_intro
              (List.map trim (splitLines a)) (List.map trim (splitLines b)))
    as [sec' E].
  rewrite E, !linesOf_app, !map_app, flat_map_app.
  cbn [Prediction.introParagraphs Prediction.conditions Prediction.redFlags
         Prediction.selfCare Prediction.specialist].
  do 5 eexists. repeat split; reflexivity.
Qed.

(** X14.  Lines appended to a text only add to the lists of a report: what
    was parsed from the text stays, in the same order, at the front of
    every list. *)
Theorem report_appended_lines_extend (a b : str) :
  let r1 := Report.buildReportStructure (Some a) in
  let r2 := Report.buildReportStructure (Some (a ++ LF :: b)) in
  exists i f d m u,
    Report.intro r2 = Report.intro r1 ++ i
    /\ Report.findings r2 = Report.findings r1 ++ f
    /\ Report.diagnoses r2 = Report.diagnoses r1 ++ d
    /\ Report.medications r2 = Report.medications r1 ++ m
    /\ Report.followups r2 = Report.followups r1 ++ u.
Proof.
  cbv zeta. rewrite !ReportFacts.report_build_contents. cbv zeta.
  unfold ReportSpec.contents, ReportSpec.stored.
  rewrite trimmed_lines_app_LF.
  destruct (contentLines_app _ ReportSpec.activeAfter Report.sec_intro
              (List.map trim (splitLines a)) (List.map trim (splitLines b)))
    as [sec' E].
  rewrite E, !linesOf_app, !map_app, !filter_app.
  cbn [Report.intro Report.findings Report.diagnoses Report.medications
         Report.followups].
  do 5 eexists. repeat split; reflexivity.
Qed.

(** ** The fields of a condition record *)

Lemma trim_In c x : In c (trim x) -> In c x.
Proof.
  unfold trim, trimStart. intros H.
  destruct (trimEnd_prefix x) as [b Hb].
  destruct (dropWhile_suffix isWhite (trimEnd x)) as [a Ha].
  rewrite Hb, Ha, !in_app_iff. auto.
Qed.

Lemma trimEnd_tail c rest :
  trimEnd (c :: rest) = c :: rest -> trimEnd rest = rest.
Proof.
  simpl. destruct (trimEnd rest) as [|d r] eqn:E.
  - destruct (isWhite c); [discriminate|]. now intros [= <-].
  - now intros [= <-].
Qed.

Lemma stripLeadingSeparator_trim z :
  trim (stripLeadingSeparator (trim z)) = stripLeadingSeparator (trim z).
Proof.
  pose proof (trim_idem z) as Hz.
  destruct (trim z) as [|c rest] eqn:E; [reflexivity|].
  unfold stripLeadingSeparator. destruct (isSeparator c); [|exact Hz].
  apply trim_fixed_trimEnd, trimEnd_tail in Hz.
  apply trim_fixed_intro.
  - now apply trimEnd_dropWhile.
  - apply dropWhile_head.
Qed.

Lemma title_of_body body :
  let title :=
    match hd_error (splitDash body) with
    | Some t => if truthy (trim t) then trim t else body
    | None => body
    end in
  (trim body = body -> trim title = title)
  /\ (title = [] <-> body = []).
Proof.
  cbv zeta. destruct (hd_error (splitDash body)) as [t|] eqn:E.
  - destruct (trim t) as [|c t'] eqn:T; cbn [truthy].
    + now split.
    + split; [intros _; rewrite <- T; apply trim_idem|].
      split; [discriminate|]. intros ->. simpl in E.
      injection E as <-. discriminate.
  - now split.
Qed.

(** X15.  In a record of [parseCondition] the title, the summary and the
    confidence label have no white space at either end, the label has no
    colon, and the title is empty exactly when nothing is left of the line
    once the confidence span and the leading separator are removed. *)
Theorem parseCondition_fields (line : str) (r : ConditionRecord) :
  parseCondition line = Some r ->
  trim (title r) = title r
  /\ trim (summary r) = summary r
  /\ trim (confidenceLabel r) = confidenceLabel r
  /\ ~ In COLON (confidenceLabel r)
  /\ (title r = [] <-> bodyAfterSeparator line = []).
Proof.
  unfold parseCondition, bodyAfterSeparator.
  destruct (truthy (cleanBullet line)); [|discriminate]. cbn [negb].
  destruct (matchBold (cleanBullet line)) as [[whole group]|];
    intros [= <-];
    cbn [title summary confidenceLabel].
  - pose proof (title_of_body
                  (stripLeadingSeparator
                     (trim (removeFirst whole (cleanBullet line)))))
      as [Ht Hnil].
    cbv zeta in Ht, Hnil.
    repeat split; try apply trim_idem.
    + apply Ht, stripLeadingSeparator_trim.
    + intros H. apply trim_In in H. unfold removeColons in H.
      apply filter_In in H as [_ H]. now rewrite N.eqb_refl in H.
    + apply Hnil.
    + apply Hnil.
  - pose proof (title_of_body (stripLeadingSeparator (cleanBullet line)))
      as [Ht Hnil].
    cbv zeta in Ht, Hnil.
    repeat split; try apply trim_idem; try reflexivity.
    + apply Ht. unfold cleanBullet. apply stripLeadingSeparator_trim.
    + intros [].
    + apply Hnil.
    + apply Hnil.
Qed.

Lemma parseCondition_fields_witness :
  trim (lit "Flu") = lit "Flu"
  /\ trim (lit "fever") = lit "fever"
  /\ trim (lit "HIGH") = lit "HIGH"
  /\ ~ In COLON (lit "HIGH")
  /\ (lit "Flu" = [] <->
      bodyAfterSeparator (lit "- Flu **HIGH:** - fever") = []).
Proof.
  apply (parseCondition_fields (lit "- Flu **HIGH:** - fever")
           (mkCondition (lit "Flu") (lit "fever") (lit "HIGH") 75)).
  reflexivity.
Defined.

(** ** Title and summary keep the body *)
















Lemma isSeparator_nonwhite c : isSeparator c = true -> isWhite c = false.
Proof.
  unfold isSeparator, COLON, DASH, EN_DASH, EM_DASH. intros H.
  repeat (apply orb_prop in H as [H|H]);
    apply N.eqb_eq in H; subst c; reflexivity.
Qed.




(** ** Headers whatever the letter case *)

Lemma asciiUpper_idem c : asciiUpper (asciiUpper c) = asciiUpper c.
Proof.
  unfold asciiUpper at 2.
  destruct ((97 <=? c) && (c <=? 122)) eqn:E.
  - bool_to_prop. unfold asciiUpper. split_tests; try reflexivity; lia.
  - unfold asciiUpper. now rewrite E.
Qed.

Lemma eqCI_upper p c : eqCI p (asciiUpper c) = eqCI p c.
Proof. unfold eqCI. now rewrite asciiUpper_idem. Qed.

Lemma startsWithCI_caseBlind pat : caseBlind (startsWithCI pat).
Proof.
  intros s. revert s. induction pat as [|p pat IH]; intros s; [reflexivity|].
  destruct s as [|c s]; [reflexivity|]. simpl.
  now rewrite eqCI_upper, IH.
Qed.

Lemma search_caseBlind m : caseBlind m -> caseBlind (search m).
Proof.
  intros Hm s. induction s as [|c s IH]; [reflexivity|].
  change (List.map asciiUpper (c :: s))
    with (asciiUpper c :: List.map asciiUpper s).
  cbn [search]. rewrite IH.
  change (asciiUpper c :: List.map asciiUpper s)
    with (List.map asciiUpper (c :: s)).
  now rewrite (Hm (c :: s)).
Qed.

Ltac no_white :=
  unfold isWhite; repeat (apply orb_false_intro);
  first [ apply N.eqb_neq; lia
        | apply andb_false_iff; left; apply N.leb_gt; lia
        | apply andb_false_iff; right; apply N.leb_gt; lia ].

Lemma isWhite_upper c : isWhite (asciiUpper c) = isWhite c.
Proof.
  unfold asciiUpper. destruct ((97 <=? c) && (c <=? 122)) eqn:E;
    [|reflexivity].
  bool_to_prop.
  transitivity false; [|symmetry]; no_white.
Qed.

Lemma dash_upper c : (asciiUpper c =? DASH) = (c =? DASH).
Proof.
  unfold asciiUpper, DASH. destruct ((97 <=? c) && (c <=? 122)) eqn:E;
    [|reflexivity].
  bool_to_prop.
  transitivity false; [|symmetry]; apply N.eqb_neq; lia.
Qed.

Lemma optSep_caseBlind k : caseBlind k -> caseBlind (Prediction.optSep k).
Proof.
  intros Hk [|c s]; simpl.
  - exact (Hk []).
  - rewrite dash_upper, isWhite_upper, (Hk s). f_equal. exact (Hk (c :: s)).
Qed.

Lemma selfCareAt_caseBlind : caseBlind Prediction.selfCareAt.
Proof.
  intros s. unfold Prediction.selfCareAt.
  rewrite (startsWithCI_caseBlind (lit "self") s), skipn_map.
  now rewrite !(optSep_caseBlind _ (startsWithCI_caseBlind _)).
Qed.

Lemma specialistAt_caseBlind : caseBlind Prediction.specialistAt.
Proof.
  intros s. unfold Prediction.specialistAt.
  now rewrite !(startsWithCI_caseBlind _ s).
Qed.

Lemma resolveSection_caseBlind s :
  Prediction.resolveSection (List.map asciiUpper s)
  = Prediction.resolveSection s.
Proof.
  unfold Prediction.resolveSection, Prediction.checks. cbn [find snd fst].
  unfold Prediction.reConditions, Prediction.reRedFlags,
    Prediction.reSelfCare, Prediction.reSpecialist, Prediction.reDisclaimer.
  rewrite !(search_caseBlind _ (startsWithCI_caseBlind _) s).
  rewrite (search_caseBlind _ selfCareAt_caseBlind s).
  now rewrite (search_caseBlind _ specialistAt_caseBlind s).
Qed.

Lemma resolveReportSection_caseBlind s :
  Report.resolveReportSection (List.map asciiUpper s)
  = Report.resolveReportSection s.
Proof.
  unfold Report.resolveReportSection, Report.containsCI.
  rewrite (startsWithCI_caseBlind _ s).
  now rewrite !(search_caseBlind _ (startsWithCI_caseBlind _) s).
Qed.

(** X17.  Header detection does not see the case of ASCII letters: two
    lines that differ only in it resolve to the same section, in both
    modes. *)
Theorem headers_case_insensitive (l1 l2 : str) :
  List.map asciiUpper l1 = List.map asciiUpper l2 ->
  Prediction.resolveSection l1 = Prediction.resolveSection l2
  /\ Report.resolveReportSection l1 = Report.resolveReportSection l2.
Proof.
  intros H. split.
  - now rewrite <- (resolveSection_caseBlind l1), H,
      resolveSection_caseBlind.
  - now rewrite <- (resolveReportSection_caseBlind l1), H,
      resolveReportSection_caseBlind.
Qed.

Lemma headers_case_insensitive_witness :
  Prediction.resolveSection (lit "RED FLAGS:")
  = Prediction.resolveSection (lit "Red flags:")
  /\ Report.resolveReportSection (lit "RED FLAGS:")
     = Report.resolveReportSection (lit "Red flags:").
Proof.
  apply (headers_case_insensitive (lit "RED FLAGS:") (lit "Red flags:")).
  reflexivity.
Defined.

(** ** Blank lines *)

Lemma contentLines_skip_blank (S : Type) (resolve : str -> option S)
    sec A W B :
  (forall l, In l W -> truthy l = false) ->
  contentLines resolve sec (A ++ W ++ B)
  = contentLines resolve sec (A ++ B).
Proof.
  intros HW. revert sec. induction A as [|l A IH]; intros sec.
  - cbn [app]. induction W as [|w W IHW]; [reflexivity|].
    cbn [app contentLines]. rewrite (HW w (or_introl eq_refl)). cbn [negb].
    apply IHW. intros l Hl. apply HW. now right.
  - cbn [app contentLines]. destruct (negb (truthy l)); [apply IH|].
    destruct (resolve l); [apply IH|]. now rewrite IH.
Qed.

Lemma filter_summary_blank W :
  (forall l, In l W -> truthy l = false) ->
  filter ReportSpec.isSummaryLine W = [].
Proof.
  induction W as [|w W IH]; [reflexivity|]. intros H.
  simpl. unfold ReportSpec.isSummaryLine at 1.
  rewrite (H w (or_introl eq_refl)). cbn [andb].
  apply IH. intros l Hl. apply H. now right.
Qed.

(** X18.  Blank lines are ignored: adding white-space-only lines between
    two lines of a text changes neither result. *)
Theorem blank_lines_ignored (a w b : str) :
  forallb isWhite w = true ->
  Prediction.buildStructuredResult (Some (a ++ LF :: w ++ LF :: b))
  = Prediction.buildStructuredResult (Some (a ++ LF :: b))
  /\ Report.buildReportStructure (Some (a ++ LF :: w ++ LF :: b))
     = Report.buildReportStructure (Some (a ++ LF :: b)).
Proof.
  intros Hw.
  assert (HW : forall l, In l (List.map trim (splitLines w)) ->
                         truthy l = false)
    by (intros l; apply blank_lines_trim, Hw).
  assert (E : List.map trim (splitLines (a ++ LF :: w ++ LF :: b))
              = List.map trim (splitLines a)
                  ++ List.map trim (splitLines w)
                  ++ List.map trim (splitLines b))
    by now rewrite !trimmed_lines_app_LF.
  split.
  - rewrite !PredictionFacts.prediction_build_contents.
    unfold PredictionSpec.sectionLines, PredictionSpec.contents.
    rewrite E, trimmed_lines_app_LF.
    now rewrite (contentLines_skip_blank _ _ _ _ _ _ HW).
  - rewrite !ReportFacts.report_build_contents. cbv zeta.
    unfold ReportSpec.contents.
    rewrite E, trimmed_lines_app_LF.
    rewrite (contentLines_skip_blank _ _ _ _ _ _ HW).
    now rewrite !filter_app, (filter_summary_blank _ HW).
Qed.

Lemma blank_lines_ignored_witness :
  Prediction.buildStructuredResult
    (Some (lit "Red Flags:" ++ LF :: lit "  " ++ LF :: lit "- Chest pain"))
  = Prediction.buildStructuredResult
      (Some (lit "Red Flags:" ++ LF :: lit "- Chest pain"))
  /\ Report.buildReportStructure
       (Some (lit "Red Flags:" ++ LF :: lit "  " ++ LF :: lit "- Chest pain"))
     = Report.buildReportStructure
         (Some (lit "Red Flags:" ++ LF :: lit "- Chest pain")).
Proof.
  apply (blank_lines_ignored (lit "Red Flags:") (lit "  ")
           (lit "- Chest pain")).
  reflexivity.
Defined.

(** ** The summary title keeps its label *)

Lemma eqCI_letter p c :
  65 <= p <= 90 -> eqCI p c = true -> 65 <= c <= 122
  /\ isWhite c = false /\ (c =? STAR) = false /\ isMarkerChar c = false.
Proof.
  intros Hp H. unfold eqCI in H. apply N.eqb_eq in H.
  assert (Hc : 65 <= c <= 122).
  { unfold asciiUpper in H.
    destruct ((97 <=? p) && (p <=? 122)) eqn:Ep; bool_to_prop; [lia|].
    destruct ((97 <=? c) && (c <=? 122)) eqn:Ec; bool_to_prop; lia. }
  split; [exact Hc|]. split; [no_white|].
  split; [apply N.eqb_neq; unfold STAR; lia|].
  unfold isMarkerChar, isDigit, DASH.
  repeat (apply orb_false_intro);
    first [ apply N.eqb_neq; lia
          | apply andb_false_iff; right; apply N.leb_gt; lia ].
Qed.

Lemma eqCI_star c : eqCI STAR c = true -> c = STAR.
Proof.
  unfold eqCI, asciiUpper, STAR. intros H. apply N.eqb_eq in H.
  simpl in H. destruct ((97 <=? c) && (c <=? 122)) eqn:Ec;
    bool_to_prop; lia.
Qed.

(** The stripped text of a summary line starts with the word Summary. *)
Lemma stripMarkers_summary_line l :
  startsWithCI (lit "**Summary") l = true ->
  startsWithCI (lit "Summary") (stripMarkers l) = true.
Proof.
  destruct l as [|a [|b [|c1 [|c2 [|c3 [|c4 [|c5 [|c6 [|c7 x]]]]]]]]];
    try (simpl; intros H; repeat rewrite ?andb_false_r in H; discriminate).
  intros H.
  change (startsWithCI (lit "**Summary")
            (a :: b :: c1 :: c2 :: c3 :: c4 :: c5 :: c6 :: c7 :: x))
    with (eqCI STAR a && (eqCI STAR b && (eqCI 83 c1 && (eqCI 117 c2
            && (eqCI 109 c3 && (eqCI 109 c4 && (eqCI 97 c5 && (eqCI 114 c6
            && (eqCI 121 c7 && true))))))))) in H.
  repeat match type of H with
         | _ && _ = true => let E := fresh "E" in apply andb_prop in H as [E H]
         end.
  apply eqCI_star in E. apply eqCI_star in E0. subst a b.
  assert (Hup : forall p c, eqCI p c = true -> eqCI (asciiUpper p) c = true).
  { intros p c Hpc. unfold eqCI in *. now rewrite asciiUpper_idem. }
  destruct (eqCI_letter 83 c1 ltac:(lia) E1) as (_ & W1 & S1 & M1).
  destruct (eqCI_letter 85 c2 ltac:(lia) (Hup _ _ E2)) as (_ & W2 & _ & _).
  destruct (eqCI_letter 77 c3 ltac:(lia) (Hup _ _ E3)) as (_ & W3 & _ & _).
  destruct (eqCI_letter 77 c4 ltac:(lia) (Hup _ _ E4)) as (_ & W4 & _ & _).
  destruct (eqCI_letter 65 c5 ltac:(lia) (Hup _ _ E5)) as (_ & W5 & _ & _).
  destruct (eqCI_letter 82 c6 ltac:(lia) (Hup _ _ E6)) as (_ & W6 & _ & _).
  destruct (eqCI_letter 89 c7 ltac:(lia) (Hup _ _ E7)) as (_ & W7 & S7 & _).
  assert (Hb : exists y,
             stripBold (STAR :: STAR :: c1 :: c2 :: c3 :: c4 :: c5 :: c6
                          :: c7 :: x)
             = c1 :: c2 :: c3 :: c4 :: c5 :: c6 :: c7 :: y).
  { unfold stripBold.
    replace (startsWith BOLD (STAR :: STAR :: c1 :: c2 :: c3 :: c4 :: c5
                                :: c6 :: c7 :: x)) with true by reflexivity.
    cbn [skipn].
    destruct (endsWith BOLD (c1 :: c2 :: c3 :: c4 :: c5 :: c6 :: c7 :: x))
      eqn:Ee; [|now exists x].
    destruct x as [|y1 [|y2 x']].
    - unfold endsWith, BOLD in Ee. cbn [rev app startsWith] in Ee.
      rewrite (N.eqb_sym STAR c7), S7 in Ee. discriminate.
    - unfold endsWith, BOLD in Ee. cbn [rev app startsWith] in Ee.
      rewrite (N.eqb_sym STAR c7), S7, andb_false_r in Ee. discriminate.
    - exists (firstn (List.length x') (y1 :: y2 :: x')). reflexivity. }
  destruct Hb as [y Hb]. unfold stripMarkers. rewrite Hb.
  unfold stripStar. rewrite S1. unfold stripMarker. rewrite M1.
  cbn [collapseWhite]. rewrite W1, W2, W3, W4, W5, W6, W7.
  rewrite (trim_cons_nonwhite _ _ W1).
  rewrite !trimEnd_cons_nonwhite by assumption.
  cbn [startsWithCI lit List.map list_ascii_of_string N_of_ascii
         N_of_digits].
  simpl. now rewrite E1, E2, E3, E4, E5, E6, E7.
Qed.

(** X19.  The summary title of a report is empty or starts with the word
    Summary in some letter case: the label of the summary line is kept in
    the title. *)
Theorem summaryTitle_keeps_label (rawText : option str) :
  let t := Report.summaryTitle (Report.buildReportStructure rawText) in
  t = [] \/ startsWithCI (lit "Summary") t = true.
Proof.
  destruct rawText as [text|]; [|now left].
  cbv zeta. rewrite ReportFacts.report_build_contents.
  cbn [Report.summaryTitle].
  assert (Hall : forall l,
             In l (filter ReportSpec.isSummaryLine
                     (List.map trim (splitLines text))) ->
             startsWithCI (lit "Summary") (stripMarkers l) = true).
  { intros l Hl. apply filter_In in Hl as [_ Hl].
    apply stripMarkers_summary_line.
    unfold ReportSpec.isSummaryLine, Report.resolveReportSection in Hl.
    destruct (startsWithCI (lit "**Summary") l); [reflexivity|].
    apply andb_prop in Hl as [_ Hl].
    repeat match type of Hl with
           | context [if ?b then _ else _] => destruct b
           end; discriminate. }
  revert Hall.
  generalize (filter ReportSpec.isSummaryLine
                (List.map trim (splitLines text))).
  intros ls Hall.
  destruct ls as [|l ls]; [now left|]. right.
  cbn [List.map]. rewrite ReportFacts.last_cons.
  revert l Hall. induction ls as [|l' ls IH]; intros l Hall.
  - apply Hall. now left.
  - cbn [List.map]. rewrite ReportFacts.last_cons.
    apply IH. intros l0 Hl0. apply Hall. now right.
Qed.

(** ** Where a content line goes *)

Lemma last_cons_any (A : Type) (x : A) l d : last (x :: l) d = last l x.
Proof.
  revert x d. induction l as [|y l IH]; intros x d; [reflexivity|].
  change (last (x :: y :: l) d) with (last (y :: l) d).
  now rewrite !IH.
Qed.

Lemma contentLines_app_active (S : Type) (resolve : str -> option S)
    sec l1 l2 :
  contentLines resolve sec (l1 ++ l2)
  = contentLines resolve sec l1
      ++ contentLines resolve (activeSection resolve sec l1) l2.
Proof.
  revert sec. induction l1 as [|l l1 IH]; intros sec; [reflexivity|].
  unfold activeSection, headerSections. cbn [app contentLines flat_map].
  destruct (truthy l); cbn [negb]; [|apply IH].
  destruct (resolve l) as [s|]; cbn [app].
  - rewrite last_cons_any. apply IH.
  - now rewrite IH.
Qed.

Lemma splitLines_single c : ~ In LF c -> splitLines c = [c].
Proof.
  induction c as [|x c IH]; [reflexivity|]. intros H.
  assert (Hx : (x =? LF) = false)
    by (apply N.eqb_neq; intros ->; apply H; now left).
  assert (Hh : headIs (N.eqb LF) c = false).
  { destruct c as [|y c]; [reflexivity|]. cbn [headIs].
    apply N.eqb_neq. intros <-. apply H. right. now left. }
  rewrite splitLines_cons by (auto; now rewrite Hh, andb_false_r).
  rewrite IH; [reflexivity|]. intros Hin. apply H. now right.
Qed.

Lemma contents_snoc_line (S : Type) (resolve : str -> option S) sec p c :
  ~ In LF c -> trim c <> [] -> resolve (trim c) = None ->
  contentLines resolve sec (List.map trim (splitLines (p ++ LF :: c)))
  = contentLines resolve sec (List.map trim (splitLines p))
      ++ [(activeSection resolve sec (List.map trim (splitLines p)),
           trim c)].
Proof.
  intros Hlf Hne Hr.
  rewrite trimmed_lines_app_LF, contentLines_app_active.
  rewrite (splitLines_single c Hlf). cbn [List.map contentLines].
  rewrite Hr. now destruct (trim c).
Qed.

Lemma linesOf_snoc (S : Type) (S_eqb : S -> S -> bool) x cl s l :
  linesOf S_eqb x (cl ++ [(s, l)])
  = linesOf S_eqb x cl ++ (if S_eqb s x then [l] else []).
Proof.
  rewrite linesOf_app. unfold linesOf at 2. simpl.
  now destruct (S_eqb s x).
Qed.

(** X20.  In prediction mode a content line appended to a text goes to the
    list of the section that is active after the text, the one of its last
    header line or the intro, and to no other list. *)
Theorem prediction_content_line_routed (p c : str) :
  ~ In LF c -> trim c <> [] -> Prediction.resolveSection (trim c) = None ->
  let active :=
    activeSection Prediction.resolveSection Prediction.sec_intro
      (List.map trim (splitLines p)) in
  let added sec :=
    if Prediction.Section_eqb active sec then [cleanBullet (trim c)]
    else [] in
  let r1 := Prediction.buildStructuredResult (Some p) in
  let r2 := Prediction.buildStructuredResult (Some (p ++ LF :: c)) in
  Prediction.introParagraphs r2
  = Prediction.introParagraphs r1 ++ added Prediction.sec_intro
  /\ Prediction.redFlags r2
     = Prediction.redFlags r1 ++ added Prediction.sec_redFlags
  /\ Prediction.selfCare r2
     = Prediction.selfCare r1 ++ added Prediction.sec_selfCare
  /\ Prediction.specialist r2
     = Prediction.specialist r1 ++ added Prediction.sec_specialist
  /\ Prediction.conditions r2
     = Prediction.conditions r1
         ++ (if Prediction.Section_eqb active Prediction.sec_conditions
             then PredictionSpec.conditionOf (trim c) else []).
Proof.
  intros Hlf Hne Hr. cbv zeta.
  rewrite !PredictionFacts.prediction_build_contents.
  unfold PredictionSpec.sectionLines, PredictionSpec.contents.
  rewrite (contents_snoc_line _ _ _ p c Hlf Hne Hr).
  rewrite !linesOf_snoc, !map_app, flat_map_app.
  cbn [Prediction.introParagraphs Prediction.conditions Prediction.redFlags
         Prediction.selfCare Prediction.specialist].
  repeat split;
    destruct (Prediction.Section_eqb _ _); cbn [List.map flat_map];
    now rewrite ?app_nil_r.
Qed.

Lemma prediction_content_line_routed_witness :
  Prediction.redFlags
    (Prediction.buildStructuredResult
       (Some ((lit "Intro." // lit "Red flags:") ++ LF :: lit "- Chest pain")))
  = Prediction.redFlags
      (Prediction.buildStructuredResult
         (Some (lit "Intro." // lit "Red flags:")))
      ++ [lit "Chest pain"].
Proof.
  destruct (prediction_content_line_routed
              (lit "Intro." // lit "Red flags:") (lit "- Chest pain"))
    as (_ & H & _).
  - vm_compute. intuition discriminate.
  - discriminate.
  - reflexivity.
  - exact H.
Defined.

(** X21.  In report mode a content line appended to a text is stored,
    stripped, in the list of the section that is active after the text and
    in no other list; when its stripped form is empty, the result is the
    one of the text alone. *)
Theorem report_content_line_routed (p c : str) :
  ~ In LF c -> trim c <> [] ->
  Report.resolveReportSection (trim c) = None ->
  let active :=
    activeSection ReportSpec.activeAfter Report.sec_intro
      (List.map trim (splitLines p)) in
  let added sec :=
    if ReportSpec.Section_eqb active sec && truthy (stripMarkers (trim c))
    then [stripMarkers (trim c)] else [] in
  let r1 := Report.buildReportStructure (Some p) in
  let r2 := Report.buildReportStructure (Some (p ++ LF :: c)) in
  Report.intro r2 = Report.intro r1 ++ added Report.sec_intro
  /\ Report.findings r2 = Report.findings r1 ++ added Report.sec_findings
  /\ Report.diagnoses r2 = Report.diagnoses r1 ++ added Report.sec_diagnoses
  /\ Report.medications r2
     = Report.medications r1 ++ added Report.sec_medications
  /\ Report.followups r2 = Report.followups r1 ++ added Report.sec_followups
  /\ (stripMarkers (trim c) = [] -> r2 = r1).
Proof.
  intros Hlf Hne Hr. cbv zeta.
  assert (Ha : ReportSpec.activeAfter (trim c) = None)
    by (unfold ReportSpec.activeAfter; now rewrite Hr).
  assert (Hs : filter ReportSpec.isSummaryLine
                 (List.map trim (splitLines (p ++ LF :: c)))
               = filter ReportSpec.isSummaryLine
                   (List.map trim (splitLines p))).
  { rewrite trimmed_lines_app_LF, filter_app, (splitLines_single c Hlf).
    cbn [List.map filter]. unfold ReportSpec.isSummaryLine at 2.
    rewrite Hr, andb_false_r. apply app_nil_r. }
  rewrite !ReportFacts.report_build_contents. cbv zeta.
  unfold ReportSpec.contents, ReportSpec.stored.
  rewrite Hs, (contents_snoc_line _ _ _ p c Hlf Hne Ha).
  rewrite !linesOf_snoc, !map_app, !filter_app.
  cbn [Report.intro Report.findings Report.diagnoses Report.medications
         Report.followups].
  repeat split;
    try (destruct (ReportSpec.Section_eqb _ _); cbn [andb List.map filter];
         [destruct (truthy (stripMarkers (trim c)))|];
         now rewrite ?app_nil_r).
  intros E.
  repeat match goal with
         | |- context [ReportSpec.Section_eqb ?a ?b] =>
             destruct (ReportSpec.Section_eqb a b)
         end;
    cbn [List.map filter flat_map]; rewrite ?E; cbn [truthy];
    now rewrite ?app_nil_r.
Qed.

Lemma report_content_line_routed_witness :
  Report.findings
    (Report.buildReportStructure
       (Some (lit "Key Findings:" ++ LF :: lit "- Elevated WBC")))
  = Report.findings
      (Report.buildReportStructure (Some (lit "Key Findings:")))
      ++ [lit "Elevated WBC"].
Proof.
  destruct (report_content_line_routed
              (lit "Key Findings:") (lit "- Elevated WBC"))
    as (_ & H & _).
  - vm_compute. intuition discriminate.
  - discriminate.
  - reflexivity.
  - exact H.
Defined.

(** ** Instances of the statements above *)

Lemma extractGeminiText_empty_witness :
  extractGeminiText (Some [Some [Some (lit "  "); None]; None]) = [].
Proof.
  apply (proj2 (extractGeminiText_empty
                  (Some [Some [Some (lit "  "); None]; None]))).
  intros parts text [H|[H|[]]] Hin; [|discriminate].
  injection H as <-. destruct Hin as [H|[H|[]]]; [|discriminate].
  injection H as <-. reflexivity.
Defined.

Lemma prediction_contents_origin_witness :
  exists line,
    In line (splitLines ruleAfterRedFlag) /\ trim line <> []
    /\ (forall sec, PredictionSpec.headerOf sec (trim line) = false)
    /\ lit "Chest pain" = cleanBullet (trim line).
Proof.
  apply (proj1 (prediction_contents_origin ruleAfterRedFlag)).
  vm_compute. auto.
Defined.
